(** * Domino Tasks backend: a shallow embedding of [backend/] and its properties

    The development follows the four source files:
    - [models.py]   the two tables ([tags], [task_tags]) and their constraints;
    - [schemas.py]  the pydantic models and their validation;
    - [crud.py]     the four store operations;
    - [main.py]     the endpoint handlers.

    Handlers run in a small state-and-exception monad over a [World]: the
    relational store, the remote provider, and the log of outbound requests.
    A Python exception is a value of [exn]; [try ... except] is [try_except]. *)

From Stdlib Require Import ZArith String Ascii List Lia Bool.
From stdpp Require Import base option list strings.

Set Warnings "-register-all".
Open Scope string_scope.
Open Scope Z_scope.

(** ** JSON values, as [response.json()] decodes them

    A decoded object is a Python [dict]: iteration follows insertion order, so
    it is kept as the ordered list of its items; [dict_get] is [d.get(k)]. *)

Inductive JSON : Type :=
| JNull
| JBool (b : bool)
| JInt (n : Z)
| JFloat (mantissa exponent : Z)
| JStr (s : string)
| JList (l : list JSON)
| JDict (items : list (string * JSON)).

Fixpoint dict_get (key : string) (items : list (string * JSON)) : option JSON :=
  match items with
  | [] => None
  | (k, v) :: rest => if String.eqb k key then Some v else dict_get key rest
  end.

(** ** Exceptions and the handler monad *)

(** An outbound request and what comes back from [client.get]: a response
    (any status), or a raised [httpx.RequestError] (timeouts, connection and
    protocol errors are all subclasses of it). *)
Record Request := { url : string; headers : list (string * string) }.

Record Response := {
  status_code : Z;
  text : string;                (* e.response.text *)
  json : option JSON            (* response.json(); None: the body is not JSON *)
}.

Inductive Reply :=
| Responded (r : Response)
| Unreachable (message : string).

Inductive exn :=
| HTTPException (status : Z) (detail : string) (hdrs : list (string * string))
| HTTPStatusError (response : Response)         (* httpx, from raise_for_status *)
| RequestError (message : string)               (* httpx, transport level *)
| ValidationError                               (* pydantic *)
| RequestValidationError                        (* fastapi, request parsing *)
| JSONDecodeError
| TypeError
| AttributeError
| IndexError
| IntegrityError                                (* sqlalchemy, constraint violated *)
| UnicodeEncodeError                            (* str.encode('ascii') *)
| OverflowError.                                (* an int beyond 64 bits given to the store *)

Inductive result (A : Type) :=
| Ok (a : A)
| Raise (e : exn).
Arguments Ok {A} a.
Arguments Raise {A} e.

(** ** [models.py] *)

Module models.

(** [class Tag(Base)], table [tags]: [id] integer primary key, [name]
    unique and not null. *)
Module Tag.
Record t := { id : Z; name : string }.
End Tag.

(** [task_tag_association], table [task_tags]: composite primary key
    [(task_id, tag_id)], [tag_id] a foreign key to [tags.id]. *)
Module task_tag_association.
Record t := { task_id : string; tag_id : Z }.
End task_tag_association.

(** The store behind a [Session]: the rows of both tables, in store order. *)
Record Session := {
  tags : list Tag.t;
  task_tags : list task_tag_association.t
}.

(** The constraints the schema declares, which the engine enforces on every
    stored state: [tags.id] is a primary key, [tags.name] is unique, and
    [(task_id, tag_id)] is the primary key of [task_tags]. *)
Record constraints (s : Session) : Prop := {
  tags_pk : NoDup (Tag.id <$> tags s);
  tags_name_unique : NoDup (Tag.name <$> tags s);
  task_tags_pk : NoDup (task_tags s)
}.

End models.

#[global] Instance Tag_eq_dec : EqDecision models.Tag.t.
Proof. solve_decision. Defined.

#[global] Instance task_tag_eq_dec : EqDecision models.task_tag_association.t.
Proof. solve_decision. Defined.

(** ** The world a request runs in *)

Record World := {
  db : models.Session;           (* the persistent store *)
  provider : Request -> Reply;   (* how the remote API answers *)
  sent : list Request            (* outbound calls made so far, oldest first *)
}.

Definition M (A : Type) : Type := World -> result A * World.

Definition ret {A} (a : A) : M A := fun w => (Ok a, w).
Definition raise {A} (e : exn) : M A := fun w => (Raise e, w).
Definition bind {A B} (m : M A) (k : A -> M B) : M B :=
  fun w => match m w with
           | (Ok a, w') => k a w'
           | (Raise e, w') => (Raise e, w')
           end.

Notation "'do' x <- m ; k" := (bind m (fun x => k))
  (at level 10, x name, m at level 100, k at level 200).

(** [try: body except ...: handler]. [handler e] is [None] when no [except]
    clause matches [e], and the exception then propagates. *)
Definition try_except {A} (body : M A) (handler : exn -> option (M A)) : M A :=
  fun w => match body w with
           | (Ok a, w') => (Ok a, w')
           | (Raise e, w') =>
               match handler e with
               | Some h => h w'
               | None => (Raise e, w')
               end
           end.

Definition lift {A} (r : result A) : M A := fun w => (r, w).

(** What the framework answers for an outcome: the handler's value with 200,
    an [HTTPException] with its own status, a request that fails parsing with
    422, and any other exception with 500. *)
Definition response_status {A} (r : result A) : Z :=
  match r with
  | Ok _ => 200
  | Raise (HTTPException status _ _) => status
  | Raise RequestValidationError => 422
  | Raise _ => 500
  end.

(** ** [schemas.py] *)

(** A validated [datetime]: the wall-clock instant in microseconds and the UTC
    offset in seconds of an aware value. *)
Record datetime := { instant : Z; utcoffset : option Z }.

Module schemas.

(** Field validators of pydantic's default (lax) mode on decoded JSON: a
    [str] field takes a JSON string only; an [Optional] field with default
    [None] also takes an absent key or [null]. *)
Definition required_str (key : string) (data : list (string * JSON)) : result string :=
  match dict_get key data with
  | Some (JStr s) => Ok s
  | _ => Raise ValidationError
  end.

Definition optional_str (key : string) (data : list (string * JSON))
  : result (option string) :=
  match dict_get key data with
  | None | Some JNull => Ok None
  | Some (JStr s) => Ok (Some s)
  | Some _ => Raise ValidationError
  end.

Module TagCreate.
Record t := { name : string }.
End TagCreate.

Module Tag.
Record t := { name : string; id : Z }.
(** [from_attributes = True]: built from the attributes of an ORM row. *)
Definition from_attributes (row : models.Tag.t) : t :=
  {| name := models.Tag.name row; id := models.Tag.id row |}.
End Tag.

Module TokenData.
Record t := { access_token : string }.
End TokenData.

Module UserInfo.
Record t := { email : string; name : string; picture : option string }.

(** [UserInfo] built from [user_data] unpacked as keyword arguments:
    unpacking needs a mapping; then the fields are validated and unknown
    keys are dropped. *)
Definition init (user_data : JSON) : result t :=
  match user_data with
  | JDict data =>
      match required_str "email" data, required_str "name" data,
            optional_str "picture" data with
      | Ok e, Ok n, Ok p => Ok {| email := e; name := n; picture := p |}
      | _, _, _ => Raise ValidationError
      end
  | _ => Raise TypeError
  end.
End UserInfo.

Module GoogleTask.
Record t := {
  id : string;
  title : string;
  status : string;
  due : option datetime;
  notes : option string
}.

Section validation.
(** pydantic's datetime parser on a JSON value ([None]: rejected). *)
Variable datetime_validate : JSON -> option datetime.

Definition optional_datetime (key : string) (data : list (string * JSON))
  : result (option datetime) :=
  match dict_get key data with
  | None | Some JNull => Ok None
  | Some v =>
      match datetime_validate v with
      | Some d => Ok (Some d)
      | None => Raise ValidationError
      end
  end.

(** [GoogleTask.model_validate(task_data)]: the input must be a dict;
    [id], [title], [status] are required; keys that are not fields are
    ignored (pydantic's default [extra = 'ignore']). *)
Definition model_validate (task_data : JSON) : result t :=
  match task_data with
  | JDict data =>
      match required_str "id" data, required_str "title" data,
            required_str "status" data, optional_datetime "due" data,
            optional_str "notes" data with
      | Ok i, Ok ti, Ok st, Ok d, Ok n =>
          Ok {| id := i; title := ti; status := st; due := d; notes := n |}
      | _, _, _, _, _ => Raise ValidationError
      end
  | _ => Raise ValidationError
  end.
End validation.
End GoogleTask.

Module Task.
Record t := {
  id : string;
  title : string;
  status : string;
  due : option datetime;
  notes : option string;
  tags : list Tag.t
}.

(** [Task] built from the fields of [google_task.model_dump()] and
    [tags=local_tags]: the dumped fields are already of their declared
    types and validate to themselves; each ORM row in [tags] is read
    through [Tag.from_attributes]. *)
Definition init (google_task : GoogleTask.t) (local_tags : list models.Tag.t) : t :=
  {| id := GoogleTask.id google_task;
     title := GoogleTask.title google_task;
     status := GoogleTask.status google_task;
     due := GoogleTask.due google_task;
     notes := GoogleTask.notes google_task;
     tags := Tag.from_attributes <$> local_tags |}.
End Task.

End schemas.

(** ** The query API used by [crud.py] (SQLAlchemy over the two tables)

    A query is the list of rows it selects, in store order. *)
Module Query.

(** An integer of the store is a signed 64-bit value. A Python [int] outside
    that range cannot be bound as a query parameter: the statement raises
    [OverflowError] and selects nothing. *)
Definition int64 (n : Z) : bool := (- 2 ^ 63 <=? n) && (n <? 2 ^ 63).

(** [.offset(n)] and [.limit(n)]. Negative arguments lie outside what the
    API documents; they are given SQLite's reading (a negative OFFSET is
    zero, a negative LIMIT is no limit). *)
Definition offset {A} (n : Z) (rows : list A) : result (list A) :=
  if int64 n
  then Ok (if n <? 0 then rows else drop (Z.to_nat n) rows)
  else Raise OverflowError.

Definition limit {A} (n : Z) (rows : list A) : result (list A) :=
  if int64 n
  then Ok (if n <? 0 then rows else take (Z.to_nat n) rows)
  else Raise OverflowError.

Definition first {A} (rows : list A) : option A := head rows.
Definition all {A} (rows : list A) : list A := rows.

(** [query(Tag).join(task_tag_association)]: the inner join on the foreign
    key [task_tags.tag_id = tags.id], one output row per matching pair. *)
Definition join (ts : list models.Tag.t) (assoc : list models.task_tag_association.t)
  : list (models.Tag.t * models.task_tag_association.t) :=
  t ← ts;
  a ← assoc;
  if decide (models.task_tag_association.tag_id a = models.Tag.id t)
  then [(t, a)] else [].

(** The integer primary key the engine gives a new row of [tags]: 1 in an
    empty table, otherwise one more than the largest key in use. *)
Definition next_id (rows : list models.Tag.t) : Z :=
  match rows with
  | [] => 1
  | r :: rest => 1 + foldr Z.max (models.Tag.id r) (models.Tag.id <$> rest)
  end.

(** [db.add(Tag(name=...)); db.commit()]: INSERT into [tags]. The UNIQUE
    constraint on [name] rejects a name in use with [IntegrityError] and the
    table keeps its rows; otherwise the new row goes last. *)
Definition insert_tag (name : string) : M models.Tag.t :=
  fun w =>
    let rows := models.tags (db w) in
    if decide (name ∈ models.Tag.name <$> rows)
    then (Raise IntegrityError, w)
    else
      let row := {| models.Tag.id := next_id rows; models.Tag.name := name |} in
      (Ok row,
       {| db := {| models.tags := rows ++ [row];
                   models.task_tags := models.task_tags (db w) |};
          provider := provider w;
          sent := sent w |}).

(** Running a SELECT: reads the store and leaves the world as it is. *)
Definition run {A} (q : models.Session -> A) : M A :=
  fun w => (Ok (q (db w)), w).

End Query.

(** ** [crud.py]

    The [db] argument of the source is the handle on the store; here the
    store is the [db] component of the world the operation runs in. *)
Module crud.

Definition get_tag_by_name (name : string) : M (option models.Tag.t) :=
  Query.run (fun db =>
    Query.first (filter (fun t => models.Tag.name t = name) (models.tags db))).

Definition get_tags (skip : Z) (limit : Z) : M (list models.Tag.t) :=
  do rows <- Query.run (fun db => models.tags db);
  do rows <- lift (Query.offset skip rows);
  do rows <- lift (Query.limit limit rows);
  ret (Query.all rows).

(** Lines 51-55: the row is added and committed; [db.refresh] then reloads
    it, so the returned object carries the id the store assigned. *)
Definition create_tag (tag : schemas.TagCreate.t) : M models.Tag.t :=
  do db_tag <- Query.insert_tag (schemas.TagCreate.name tag);
  ret db_tag.

Definition get_tags_for_task (task_id : string) : M (list models.Tag.t) :=
  Query.run (fun db =>
    Query.all
      (fst <$>
         filter (fun p => models.task_tag_association.task_id (snd p) = task_id)
                (Query.join (models.tags db) (models.task_tags db)))).

End crud.

(** ** The HTTP client ([httpx]) and Python built-ins used by [main.py] *)

Module httpx.

(** A string is the sequence of its character codes; a code of 128 or more
    is a non-ASCII character, which [str.encode('ascii')] refuses. *)
Definition is_ascii (c : ascii) : bool :=
  match c with
  | Ascii _ _ _ _ _ _ _ high => negb high
  end.

Definition encodable (value : string) : bool :=
  forallb is_ascii (list_ascii_of_string value).

(** The client encodes header names and values as ASCII when it builds the
    request. *)
Definition encodable_headers (headers : list (string * string)) : bool :=
  forallb (fun kv => encodable (fst kv) && encodable (snd kv)) headers.

(** [await client.get(url, headers=headers)]: when a header does not encode,
    [UnicodeEncodeError] is raised while the request is built and nothing is
    sent; otherwise the call is logged, and the provider either answers or
    the transport raises [RequestError]. *)
Definition get (url : string) (headers : list (string * string)) : M Response :=
  fun w =>
    if encodable_headers headers
    then
      let request := {| url := url; headers := headers |} in
      let w' := {| db := db w; provider := provider w; sent := sent w ++ [request] |} in
      match provider w request with
      | Responded r => (Ok r, w')
      | Unreachable message => (Raise (RequestError message), w')
      end
    else (Raise UnicodeEncodeError, w).

(** [response.raise_for_status()]: returns on a 2xx status and raises
    [HTTPStatusError], carrying the response, on any other status. *)
Definition raise_for_status (response : Response) : M unit :=
  if (200 <=? status_code response) && (status_code response <=? 299)
  then ret tt
  else raise (HTTPStatusError response).

(** [response.json()]. *)
Definition json (response : Response) : M JSON :=
  match json response with
  | Some v => ret v
  | None => raise JSONDecodeError
  end.

End httpx.

Module py.

(** [s.split(sep)] for a one-character separator: every occurrence splits,
    so the result is never empty and may hold empty pieces. *)
Fixpoint split (sep : ascii) (s : string) : list string :=
  match s with
  | EmptyString => [EmptyString]
  | String c rest =>
      if Ascii.eqb c sep then EmptyString :: split sep rest
      else match split sep rest with
           | part :: parts => String c part :: parts
           | [] => [String c EmptyString]
           end
  end.

(** [s.startswith(p)]. *)
Definition startswith (s p : string) : bool := String.prefix p s.

(** [l[i]] on a list. *)
Definition index {A} (l : list A) (i : nat) : M A :=
  match l !! i with
  | Some x => ret x
  | None => raise IndexError
  end.

(** [obj.get(key, default)] on a decoded JSON value: only a dict has [get]. *)
Definition get (obj : JSON) (key : string) (default : JSON) : M JSON :=
  match obj with
  | JDict items =>
      match dict_get key items with
      | Some v => ret v
      | None => ret default
      end
  | _ => raise AttributeError
  end.

(** The values a [for] loop draws from a decoded JSON value: the elements
    of a list, the keys of a dict, the characters of a string; the other
    values are not iterable. *)
Definition iter (obj : JSON) : M (list JSON) :=
  match obj with
  | JList l => ret l
  | JDict items => ret (map (fun kv => JStr (fst kv)) items)
  | JStr s => ret (map (fun c => JStr (String c EmptyString)) (list_ascii_of_string s))
  | _ => raise TypeError
  end.

End py.

(** ** [main.py]

    The file holds the application twice (lines 1-190 and 192-377). Python
    keeps the last binding of a name, and [app] itself is bound again on line
    203, so the routes of the served application are those of the second
    half. [authenticate_google], [create_tag] and [read_tags] read the same in
    both halves; [get_tasks] differs in how the bearer token is obtained, and
    the first version is kept as [main.first.get_tasks]. *)
Module main.

Definition HTTP_400_BAD_REQUEST : Z := 400.
Definition HTTP_401_UNAUTHORIZED : Z := 401.

(** [authenticate_google], lines 46-89 and 227-270. *)
Definition authenticate_google (token_data : schemas.TokenData.t)
  : M schemas.UserInfo.t :=
  let google_userinfo_url := "https://www.googleapis.com/oauth2/v3/userinfo" in
  let headers :=
    [("Authorization", "Bearer " +:+ schemas.TokenData.access_token token_data)] in
  try_except
    (do response <- httpx.get google_userinfo_url headers;
     do _ <- httpx.raise_for_status response;
     do user_data <- httpx.json response;
     lift (schemas.UserInfo.init user_data))
    (fun e =>
       match e with
       | HTTPStatusError response =>
           Some (if status_code response =? 401
                 then raise (HTTPException HTTP_401_UNAUTHORIZED
                               "Invalid or expired Google token."
                               [("WWW-Authenticate", "Bearer")])
                 else raise (HTTPException HTTP_400_BAD_REQUEST
                               ("Failed to fetch user info from Google: "
                                  +:+ text response) []))
       | RequestError message =>
           Some (raise (HTTPException HTTP_400_BAD_REQUEST
                          ("An error occurred while requesting user info from Google: "
                             +:+ message) []))
       | _ => None
       end).

Section tasks.
Variable datetime_validate : JSON -> option datetime.

(** The loop of lines 123-132 and 310-319, with [enriched_tasks] as the
    list built so far. *)
Fixpoint for_task_data (google_tasks_data : list JSON)
    (enriched_tasks : list schemas.Task.t) : M (list schemas.Task.t) :=
  match google_tasks_data with
  | [] => ret enriched_tasks
  | task_data :: rest =>
      do google_task <-
        lift (schemas.GoogleTask.model_validate datetime_validate task_data);
      do local_tags <- crud.get_tags_for_task (schemas.GoogleTask.id google_task);
      let enriched_task := schemas.Task.init google_task local_tags in
      for_task_data rest (enriched_tasks ++ [enriched_task])
  end.

(** Lines 112-151, and again lines 299-338: what both versions of
    [get_tasks] do once they hold [token]. *)
Definition fetch_and_enrich (token : string) : M (list schemas.Task.t) :=
  let google_tasks_url :=
    "https://www.googleapis.com/tasks/v1/lists/@default/tasks" in
  let headers := [("Authorization", "Bearer " +:+ token)] in
  let enriched_tasks := [] in
  try_except
    (do response <- httpx.get google_tasks_url headers;
     do _ <- httpx.raise_for_status response;
     do body <- httpx.json response;
     do google_tasks_data <- py.get body "items" (JList []);
     do items <- py.iter google_tasks_data;
     for_task_data items enriched_tasks)
    (fun e =>
       match e with
       | HTTPStatusError response =>
           Some (if status_code response =? 401
                 then raise (HTTPException HTTP_401_UNAUTHORIZED
                               "Invalid or expired Google token." [])
                 else raise (HTTPException HTTP_400_BAD_REQUEST
                               ("Failed to fetch tasks from Google: "
                                  +:+ text response) []))
       | RequestError message =>
           Some (raise (HTTPException HTTP_400_BAD_REQUEST
                          ("An error occurred while requesting tasks from Google: "
                             +:+ message) []))
       | _ => None
       end).

End tasks.

(** The first [get_tasks], lines 92-151. Its [credentials] come from
    [Security(bearer_scheme)] as an [HTTPAuthorizationCredentials], the
    framework's model with the two fields [scheme] and [credentials]. *)
Module first.
Record HTTPAuthorizationCredentials := { scheme : string; credentials : string }.

(** [credentials.token] (line 111): the model has no attribute [token]. *)
Definition token (c : HTTPAuthorizationCredentials) : M string :=
  raise AttributeError.

Definition get_tasks (datetime_validate : JSON -> option datetime)
    (credentials : HTTPAuthorizationCredentials) : M (list schemas.Task.t) :=
  do token <- token credentials;
  fetch_and_enrich datetime_validate token.
End first.

(** The second [get_tasks], lines 273-338: the one that is served. *)
Definition get_tasks (datetime_validate : JSON -> option datetime)
    (authorization : string) : M (list schemas.Task.t) :=
  if negb (py.startswith authorization "Bearer ")
  then raise (HTTPException HTTP_401_UNAUTHORIZED "Invalid authorization scheme." [])
  else
    do token <- py.index (py.split " " authorization) 1;
    fetch_and_enrich datetime_validate token.

(** [create_tag], lines 155-174 and 342-361. [if db_tag:] holds exactly when
    a row was found. *)
Definition create_tag (tag : schemas.TagCreate.t) : M models.Tag.t :=
  do db_tag <- crud.get_tag_by_name (schemas.TagCreate.name tag);
  match db_tag with
  | Some _ => raise (HTTPException 400 "Tag already registered" [])
  | None => crud.create_tag tag
  end.

(** [read_tags], lines 177-190 and 364-377. *)
Definition read_tags (skip : Z) (limit : Z) : M (list models.Tag.t) :=
  do tags <- crud.get_tags skip limit;
  ret tags.

End main.

(** ** The routes, as the framework binds a request to a handler *)
Module app.

(** A parameter declared [Annotated[str, Header()]] has no default: a
    request without the header is rejected while the request is parsed. *)
Definition Header (value : option string) : M string :=
  match value with
  | Some v => ret v
  | None => raise RequestValidationError
  end.

(** [GET /tasks]; [authorization] is the request's [Authorization] header,
    [None] when the request carries none. *)
Definition GET_tasks (datetime_validate : JSON -> option datetime)
    (authorization : option string) : M (list schemas.Task.t) :=
  do authorization <- Header authorization;
  main.get_tasks datetime_validate authorization.

(** [POST /tags/]. *)
Definition POST_tags (tag : schemas.TagCreate.t) : M models.Tag.t :=
  main.create_tag tag.

(** [GET /tags/], with the defaults [skip = 0] and [limit = 100] of the
    signature for an absent query parameter. *)
Definition GET_tags (skip limit : option Z) : M (list models.Tag.t) :=
  main.read_tags (default 0 skip) (default 100 limit).

(** [POST /auth/google]. *)
Definition POST_auth_google (token_data : schemas.TokenData.t)
  : M schemas.UserInfo.t :=
  main.authenticate_google token_data.

(** The four routes of the application, and the world a request leaves
    behind. *)
Inductive request :=
| post_auth_google (token_data : schemas.TokenData.t)
| get_tasks (authorization : option string)
| post_tags (tag : schemas.TagCreate.t)
| get_tags (skip limit : option Z).

Definition serve (datetime_validate : JSON -> option datetime)
    (r : request) (w : World) : World :=
  match r with
  | post_auth_google token_data => snd (POST_auth_google token_data w)
  | get_tasks authorization => snd (GET_tasks datetime_validate authorization w)
  | post_tags tag => snd (POST_tags tag w)
  | get_tags skip limit => snd (GET_tags skip limit w)
  end.

Definition serve_all (datetime_validate : JSON -> option datetime)
    (rs : list request) (w : World) : World :=
  foldl (fun w r => serve datetime_validate r w) w rs.

End app.

(** ** Notions used in the statements *)

(** The world after a successful insert of [row]. *)
Definition with_tag (w : World) (row : models.Tag.t) : World :=
  {| db := {| models.tags := models.tags (db w) ++ [row];
              models.task_tags := models.task_tags (db w) |};
     provider := provider w;
     sent := sent w |}.

(** The world after one more outbound call. *)
Definition with_call (w : World) (request : Request) : World :=
  {| db := db w; provider := provider w; sent := sent w ++ [request] |}.

(** The requests the two external calls send for a token. *)
Definition userinfo_request (token : string) : Request :=
  {| url := "https://www.googleapis.com/oauth2/v3/userinfo";
     headers := [("Authorization", "Bearer " +:+ token)] |}.

Definition tasks_request (token : string) : Request :=
  {| url := "https://www.googleapis.com/tasks/v1/lists/@default/tasks";
     headers := [("Authorization", "Bearer " +:+ token)] |}.

(** [raise_for_status] lets a response through. *)
Definition is_success (r : Response) : Prop :=
  200 <= status_code r <= 299.

(** A provider call that fails: the transport raises, or the status is not
    a success (in particular every 4xx and 5xx status). *)
Definition call_fails (reply : Reply) : Prop :=
  match reply with
  | Unreachable _ => True
  | Responded r => ~ is_success r
  end.

(** A raw exception of the HTTP client. *)
Definition transport_exception (e : exn) : Prop :=
  match e with
  | HTTPStatusError _ | RequestError _ => True
  | _ => False
  end.


(** An item validates: the three required keys hold strings, [due] is
    absent, null or a value the datetime parser takes, and [notes] is absent,
    null or a string. *)
Definition well_formed_item (datetime_validate : JSON -> option datetime)
    (data : list (string * JSON)) (google_task : schemas.GoogleTask.t) : Prop :=
  dict_get "id" data = Some (JStr (schemas.GoogleTask.id google_task)) /\
  dict_get "title" data = Some (JStr (schemas.GoogleTask.title google_task)) /\
  dict_get "status" data = Some (JStr (schemas.GoogleTask.status google_task)) /\
  match dict_get "due" data with
  | None | Some JNull => schemas.GoogleTask.due google_task = None
  | Some v => datetime_validate v <> None /\
              schemas.GoogleTask.due google_task = datetime_validate v
  end /\
  match dict_get "notes" data with
  | None | Some JNull => schemas.GoogleTask.notes google_task = None
  | Some (JStr s) => schemas.GoogleTask.notes google_task = Some s
  | Some _ => False
  end.


(** A computation that leaves the store as it found it. *)
Definition keeps_db {A} (m : M A) : Prop :=
  forall w, db (snd (m w)) = db w.

(** A computation that leaves the whole world (store, provider, call log) as
    it found it. *)
Definition keeps_world {A} (m : M A) : Prop :=
  forall w, snd (m w) = w.

(** The foreign key of [task_tags]: every association row refers to a
    stored tag ([ForeignKey('tags.id')], models.py line 8). *)
Definition foreign_key (s : models.Session) : Prop :=
  forall a, a ∈ models.task_tags s ->
    models.task_tag_association.tag_id a ∈ (models.Tag.id <$> models.tags s).

(** [s] holds no space character. *)
Definition no_space (s : string) : Prop :=
  " "%char ∉ list_ascii_of_string s.

(** ** Sample data for the worked instances *)
Module sample.

Definition urgent := {| models.Tag.id := 1; models.Tag.name := "urgent" |}.
Definition home := {| models.Tag.id := 2; models.Tag.name := "home" |}.
Definition work := {| models.Tag.id := 3; models.Tag.name := "work" |}.

Definition link (task_id : string) (tag_id : Z) :=
  {| models.task_tag_association.task_id := task_id;
     models.task_tag_association.tag_id := tag_id |}.

Definition store : models.Session :=
  {| models.tags := [urgent; home; work];
     models.task_tags := [link "t1" 1; link "t2" 2; link "t1" 3] |}.

Definition no_datetime : JSON -> option datetime := fun _ => None.

Definition world (reply : Reply) : World :=
  {| db := store; provider := fun _ => reply; sent := [] |}.

Definition offline : World := world (Unreachable "timed out").

Definition milk : JSON :=
  JDict [("id", JStr "t1"); ("title", JStr "Buy milk");
         ("status", JStr "needsAction"); ("etag", JStr "x")].
Definition bread : JSON :=
  JDict [("id", JStr "t2"); ("title", JStr "Buy bread");
         ("status", JStr "completed"); ("notes", JStr "rye")].

Definition response (status : Z) (items : list JSON) : Response :=
  {| status_code := status;
     text := "body";
     json := Some (JDict [("kind", JStr "tasks#tasks"); ("items", JList items)]) |}.

Definition answer (status : Z) (items : list JSON) : Reply :=
  Responded (response status items).

End sample.

Module sample_auth.

Definition profile (fields : list (string * JSON)) : Reply :=
  Responded {| status_code := 200; text := "profile"; json := Some (JDict fields) |}.

Definition ada : list (string * JSON) :=
  [("sub", JStr "42"); ("email", JStr "ada@example.org"); ("name", JStr "Ada")].

Definition token_data : schemas.TokenData.t :=
  {| schemas.TokenData.access_token := "abc" |}.

Definition raw (status : Z) (body : option JSON) : Reply :=
  Responded {| status_code := status; text := "raw"; json := body |}.

End sample_auth.

(** * Properties *)

(** ** Strings *)

Lemma split_not_nil (sep : ascii) (s : string) : py.split sep s <> [].
Proof.
  induction s as [|c s IH]; simpl; [discriminate|].
  destruct (Ascii.eqb c sep); [discriminate|].
  destruct (py.split sep s); [contradiction|discriminate].
Qed.

Lemma prefix_append (p s : string) :
  String.prefix p s = true -> exists rest, s = p +:+ rest.
Proof.
  revert s. induction p as [|c p IH]; intros s H.
  - exists s. reflexivity.
  - destruct s as [|d s]; simpl in H; [discriminate|].
    destruct (Ascii.ascii_dec c d) as [->|]; [|discriminate].
    destruct (IH s H) as [rest ->]. exists rest. reflexivity.
Qed.

(** After [startswith("Bearer ")] the index [1] of the split exists, so line
    297 cannot raise [IndexError]. *)
Lemma bearer_token_exists (authorization : string) :
  py.startswith authorization "Bearer " = true ->
  exists token, py.split " " authorization !! 1%nat = Some token.
Proof.
  intros H. apply prefix_append in H as [rest ->].
  change ("Bearer " +:+ rest) with (String "B" (String "e" (String "a" (String "r"
    (String "e" (String "r" (String " " rest))))))).
  cbn. destruct (py.split " " rest) as [|token parts] eqn:E.
  - exfalso. exact (split_not_nil _ _ E).
  - exists token. reflexivity.
Qed.

(** ** The store *)

Lemma next_id_above (rows : list models.Tag.t) (r : models.Tag.t) :
  r ∈ rows -> models.Tag.id r < Query.next_id rows.
Proof.
  destruct rows as [|r0 rest]; [intros H; inversion H|].
  unfold Query.next_id. intros H.
  assert (Hmax : forall (l : list Z) (z0 z : Z), z = z0 \/ z ∈ l -> z <= foldr Z.max z0 l).
  { induction l as [|a l IH]; intros z0 z [->|Hz]; simpl.
    - lia.
    - inversion Hz.
    - specialize (IH z0 z0 (or_introl eq_refl)). lia.
    - apply elem_of_cons in Hz as [->|Hz]; [lia|].
      specialize (IH z0 z (or_intror Hz)). lia. }
  apply elem_of_cons in H as [->|H].
  - specialize (Hmax (models.Tag.id <$> rest) (models.Tag.id r0) (models.Tag.id r0)
                  (or_introl eq_refl)). lia.
  - specialize (Hmax (models.Tag.id <$> rest) (models.Tag.id r0) (models.Tag.id r)
                  (or_intror (list_elem_of_fmap_2 _ _ _ H))). lia.
Qed.

Lemma next_id_fresh (rows : list models.Tag.t) :
  Query.next_id rows ∉ models.Tag.id <$> rows.
Proof.
  intros H. apply list_elem_of_fmap in H as (r & Heq & Hr).
  apply next_id_above in Hr. lia.
Qed.

Lemma filter_name_absent (name : string) (rows : list models.Tag.t) :
  name ∉ models.Tag.name <$> rows ->
  filter (fun t => models.Tag.name t = name) rows = [].
Proof.
  intros H. induction rows as [|r rows IH]; [reflexivity|].
  rewrite fmap_cons in H. apply not_elem_of_cons in H as [Hne Hrest].
  rewrite filter_cons_False by congruence. auto.
Qed.

Lemma join_elem (ts : list models.Tag.t) (assoc : list models.task_tag_association.t)
    (t : models.Tag.t) (a : models.task_tag_association.t) :
  (t, a) ∈ Query.join ts assoc <->
  t ∈ ts /\ a ∈ assoc /\ models.task_tag_association.tag_id a = models.Tag.id t.
Proof.
  unfold Query.join. rewrite list_elem_of_bind. split.
  - intros (t' & Hin & Ht'). apply list_elem_of_bind in Hin as (a' & Hin & Ha').
    case_decide; [|inversion Hin].
    apply list_elem_of_singleton in Hin. inversion Hin; subst. auto.
  - intros (Ht & Ha & Heq). exists t. split; [|assumption].
    apply list_elem_of_bind. exists a. split; [|assumption].
    rewrite decide_True by assumption. apply list_elem_of_singleton. reflexivity.
Qed.

Lemma join_NoDup (ts : list models.Tag.t) (assoc : list models.task_tag_association.t) :
  NoDup ts -> NoDup assoc -> NoDup (Query.join ts assoc).
Proof.
  intros Hts Hassoc. unfold Query.join. apply NoDup_bind; [| |assumption].
  - intros t1 t2 [t a] _ _ H1 H2.
    apply list_elem_of_bind in H1 as (a1 & H1 & _).
    apply list_elem_of_bind in H2 as (a2 & H2 & _).
    repeat case_decide; try (inversion H1; fail); try (inversion H2; fail).
    apply list_elem_of_singleton in H1, H2. congruence.
  - intros t _. apply NoDup_bind; [| |assumption].
    + intros a1 a2 [t' a] _ _ H1 H2.
      repeat case_decide; try (inversion H1; fail); try (inversion H2; fail).
      apply list_elem_of_singleton in H1, H2. congruence.
    + intros a _. case_decide; [apply NoDup_singleton|apply NoDup_nil_2].
Qed.

Lemma get_tag_by_name_run (name : string) (w : World) :
  crud.get_tag_by_name name w =
  (Ok (head (filter (fun t => models.Tag.name t = name) (models.tags (db w)))), w).
Proof. reflexivity. Qed.

Lemma get_tag_by_name_present (name : string) (w : World) :
  name ∈ models.Tag.name <$> models.tags (db w) ->
  exists t, crud.get_tag_by_name name w = (Ok (Some t), w) /\
            models.Tag.name t = name /\ t ∈ models.tags (db w).
Proof.
  intros H. apply list_elem_of_fmap in H as (r & Hname & Hr).
  rewrite get_tag_by_name_run.
  destruct (filter (fun t => models.Tag.name t = name) (models.tags (db w)))
    as [|t rest] eqn:E.
  - exfalso. eapply (filter_nil_not_elem_of _ _ r E); [symmetry|]; eassumption.
  - exists t. split; [reflexivity|].
    assert (Ht : t ∈ filter (fun t => models.Tag.name t = name) (models.tags (db w)))
      by (rewrite E; left).
    apply list_elem_of_filter in Ht. exact Ht.
Qed.

Lemma get_tag_by_name_absent (name : string) (w : World) :
  name ∉ models.Tag.name <$> models.tags (db w) ->
  crud.get_tag_by_name name w = (Ok None, w).
Proof.
  intros H. rewrite get_tag_by_name_run, filter_name_absent by assumption. reflexivity.
Qed.

Lemma create_tag_fresh (tag : schemas.TagCreate.t) (w : World) :
  schemas.TagCreate.name tag ∉ models.Tag.name <$> models.tags (db w) ->
  let row := {| models.Tag.id := Query.next_id (models.tags (db w));
                models.Tag.name := schemas.TagCreate.name tag |} in
  main.create_tag tag w = (Ok row, with_tag w row).
Proof.
  intros H row. unfold main.create_tag, bind.
  rewrite get_tag_by_name_absent by assumption.
  unfold crud.create_tag, bind, Query.insert_tag.
  rewrite decide_False by assumption. reflexivity.
Qed.

Lemma create_tag_taken (tag : schemas.TagCreate.t) (w : World) :
  schemas.TagCreate.name tag ∈ models.Tag.name <$> models.tags (db w) ->
  main.create_tag tag w = (Raise (HTTPException 400 "Tag already registered" []), w).
Proof.
  intros H. apply get_tag_by_name_present in H as (t & Hget & _).
  unfold main.create_tag, bind. rewrite Hget. reflexivity.
Qed.

(** Without the pre-check of the handler, a second insert of a name is
    stopped by the UNIQUE constraint and leaves the store as it was. *)
Lemma crud_create_tag_duplicate (tag : schemas.TagCreate.t) (w : World) :
  schemas.TagCreate.name tag ∈ models.Tag.name <$> models.tags (db w) ->
  crud.create_tag tag w = (Raise IntegrityError, w).
Proof.
  intros H. unfold crud.create_tag, bind, Query.insert_tag.
  rewrite decide_True by assumption. reflexivity.
Qed.

Lemma get_tag_by_name_with_tag (w : World) (row : models.Tag.t) :
  models.Tag.name row ∉ models.Tag.name <$> models.tags (db w) ->
  crud.get_tag_by_name (models.Tag.name row) (with_tag w row)
  = (Ok (Some row), with_tag w row).
Proof.
  intros H. rewrite get_tag_by_name_run. simpl.
  rewrite filter_app, filter_name_absent by assumption.
  rewrite filter_cons_True by reflexivity. reflexivity.
Qed.

Lemma int64_in_range (n : Z) : 0 <= n < 2 ^ 63 -> Query.int64 n = true.
Proof.
  intros [H0 H1]. unfold Query.int64.
  destruct (Z.leb_spec (- 2 ^ 63) n); [|lia].
  destruct (Z.ltb_spec n (2 ^ 63)); [reflexivity|lia].
Qed.

Lemma get_tags_run (skip limit : Z) (w : World) :
  0 <= skip < 2 ^ 63 -> 0 <= limit < 2 ^ 63 ->
  crud.get_tags skip limit w =
  (Ok (take (Z.to_nat limit) (drop (Z.to_nat skip) (models.tags (db w)))), w).
Proof.
  intros Hskip Hlimit.
  unfold crud.get_tags, bind, Query.run, lift, Query.all, Query.limit, Query.offset.
  rewrite (int64_in_range skip Hskip), (int64_in_range limit Hlimit).
  destruct (Z.ltb_spec skip 0); [lia|]. destruct (Z.ltb_spec limit 0); [lia|].
  reflexivity.
Qed.

Lemma get_tags_overflow (skip limit : Z) (w : World) :
  Query.int64 skip = false \/ Query.int64 limit = false ->
  crud.get_tags skip limit w = (Raise OverflowError, w).
Proof.
  unfold crud.get_tags, bind, Query.run, lift, Query.all, Query.limit, Query.offset.
  intros [H|H]; rewrite H; [reflexivity|]. destruct (Query.int64 skip); reflexivity.
Qed.

(** C7 (as amended). For [skip] and [limit] that are non-negative and fit a
    64-bit integer, listing tags returns the rows of the tag table in store
    order with the first [skip] left out and at most [limit] kept; with
    [limit = 0] (so for [list(0, 0)]) it returns the empty sequence. The store
    is left as it was. *)
Theorem get_tags_pagination (skip limit : Z) (w : World) :
  0 <= skip < 2 ^ 63 -> 0 <= limit < 2 ^ 63 ->
  exists rows,
    crud.get_tags skip limit w = (Ok rows, w) /\
    app.GET_tags (Some skip) (Some limit) w = (Ok rows, w) /\
    rows = take (Z.to_nat limit) (drop (Z.to_nat skip) (models.tags (db w))) /\
    Z.of_nat (length rows) <= limit /\
    (forall i : nat, Z.of_nat i < limit ->
       rows !! i = models.tags (db w) !! (Z.to_nat skip + i)%nat) /\
    (limit = 0 -> rows = []).
Proof.
  intros Hskip Hlimit.
  exists (take (Z.to_nat limit) (drop (Z.to_nat skip) (models.tags (db w)))).
  pose proof (get_tags_run skip limit w Hskip Hlimit) as Hrun.
  split; [exact Hrun|]. split.
  { change (app.GET_tags (Some skip) (Some limit) w)
      with (bind (crud.get_tags skip limit) (fun tags => ret tags) w).
    unfold bind. rewrite Hrun. reflexivity. }
  split; [reflexivity|]. split.
  { rewrite length_take. lia. }
  split.
  - intros i Hi. rewrite lookup_take_lt by lia. apply lookup_drop.
  - intros ->. reflexivity.
Qed.

Lemma get_tags_pagination_witness :
  exists rows,
    crud.get_tags 1 1 sample.offline = (Ok rows, sample.offline) /\
    rows = [sample.home].
Proof.
  destruct (get_tags_pagination 1 1 sample.offline ltac:(lia) ltac:(lia))
    as (rows & Hrun & _ & Hrows & _).
  exists rows. split; [exact Hrun|exact Hrows].
Defined.

(** C7 as first stated, for every non-negative [skip] and [limit], does not
    hold: a [limit] of [2 ^ 63] is non-negative, and the listing raises
    [OverflowError] instead of returning rows. *)
Lemma get_tags_pagination_counterexample :
  ~ (forall (skip limit : Z) (w : World), 0 <= skip -> 0 <= limit ->
       exists rows, crud.get_tags skip limit w = (Ok rows, w) /\
                    Z.of_nat (length rows) <= limit).
Proof.
  intros H.
  destruct (H 0 (2 ^ 63) sample.offline ltac:(lia) ltac:(lia)) as (rows & Hrun & _).
  rewrite get_tags_overflow in Hrun by (right; reflexivity). discriminate.
Qed.

Lemma get_tags_for_task_run (task_id : string) (w : World) :
  crud.get_tags_for_task task_id w =
  (Ok (fst <$> filter (fun p => models.task_tag_association.task_id (snd p) = task_id)
                      (Query.join (models.tags (db w)) (models.task_tags (db w)))), w).
Proof. reflexivity. Qed.

(** C8. [get_tags_for_task] returns, without raising, exactly the tag rows
    that the association table links to the task id; when no association row
    carries the task id the result is the empty sequence; the world (the
    store included) is the same afterwards. *)
Theorem get_tags_for_task_read (task_id : string) (w : World) :
  exists rows,
    crud.get_tags_for_task task_id w = (Ok rows, w) /\
    (forall t, t ∈ rows <->
       t ∈ models.tags (db w) /\
       {| models.task_tag_association.task_id := task_id;
          models.task_tag_association.tag_id := models.Tag.id t |}
         ∈ models.task_tags (db w)) /\
    ((forall a, a ∈ models.task_tags (db w) ->
        models.task_tag_association.task_id a <> task_id) -> rows = []).
Proof.
  eexists. split; [apply get_tags_for_task_run|]. split.
  - intros t. rewrite list_elem_of_fmap. split.
    + intros ([t' a] & -> & Hp). apply list_elem_of_filter in Hp as [Htask Hp].
      apply join_elem in Hp as (Ht & Ha & Hid). simpl in *.
      split; [assumption|]. destruct a as [tid gid]. simpl in *. subst. assumption.
    + intros [Ht Ha].
      exists (t, {| models.task_tag_association.task_id := task_id;
                    models.task_tag_association.tag_id := models.Tag.id t |}).
      split; [reflexivity|].
      apply list_elem_of_filter. split; [reflexivity|].
      apply join_elem. split; [assumption|]. split; [exact Ha|reflexivity].
  - intros Hnone.
    destruct (filter _ (Query.join _ _)) as [|[t a] rest] eqn:E; [reflexivity|].
    exfalso.
    assert (Hp : (t, a) ∈ filter
               (fun p => models.task_tag_association.task_id (snd p) = task_id)
               (Query.join (models.tags (db w)) (models.task_tags (db w))))
      by (rewrite E; left).
    apply list_elem_of_filter in Hp as [Htask Hp].
    apply join_elem in Hp as (_ & Ha & _). exact (Hnone a Ha Htask).
Qed.

Lemma get_tags_for_task_read_witness :
  (exists rows, crud.get_tags_for_task "t1" sample.offline = (Ok rows, sample.offline) /\
                sample.work ∈ rows /\ (sample.home ∉ rows)) /\
  crud.get_tags_for_task "t9" sample.offline = (Ok [], sample.offline).
Proof.
  split.
  - destruct (get_tags_for_task_read "t1" sample.offline) as (rows & Hrun & Hiff & _).
    exists rows. split; [exact Hrun|]. split.
    + apply Hiff. split; vm_compute; do 2 right; left.
    + intros H. apply Hiff in H as [_ H]. vm_compute in H.
      repeat (apply elem_of_cons in H as [H|H]; [discriminate|]). inversion H.
  - destruct (get_tags_for_task_read "t9" sample.offline) as (rows & Hrun & _ & Hnone).
    rewrite Hrun, Hnone; [reflexivity|].
    intros a Ha. vm_compute in Ha.
    repeat (apply elem_of_cons in Ha as [->|Ha]; [discriminate|]). inversion Ha.
Defined.

(** C3. [POST /tags/] with a name already in the store: the [get_tag_by_name]
    pre-check finds a row, the request fails with status 400 and the world
    (so the tag table) is unchanged. With a name not in the store: a new row
    carrying that name and an unused id is appended to the tag table and
    returned. *)
Theorem create_tag_conflict_or_insert (tag : schemas.TagCreate.t) (w : World) :
  (schemas.TagCreate.name tag ∈ models.Tag.name <$> models.tags (db w) ->
     (exists t, crud.get_tag_by_name (schemas.TagCreate.name tag) w = (Ok (Some t), w)) /\
     app.POST_tags tag w = (Raise (HTTPException 400 "Tag already registered" []), w) /\
     response_status (fst (app.POST_tags tag w)) = 400) /\
  (schemas.TagCreate.name tag ∉ models.Tag.name <$> models.tags (db w) ->
     exists row,
       app.POST_tags tag w = (Ok row, with_tag w row) /\
       models.Tag.name row = schemas.TagCreate.name tag /\
       (models.Tag.id row ∉ models.Tag.id <$> models.tags (db w)) /\
       models.tags (db (with_tag w row)) = (models.tags (db w) ++ [row])%list).
Proof.
  split.
  - intros H. split.
    + destruct (get_tag_by_name_present _ _ H) as (t & Ht & _). eauto.
    + unfold app.POST_tags. rewrite create_tag_taken by assumption. auto.
  - intros H. eexists. unfold app.POST_tags.
    split; [apply create_tag_fresh; assumption|].
    split; [reflexivity|]. split; [apply next_id_fresh|reflexivity].
Qed.

Lemma create_tag_conflict_or_insert_witness :
  app.POST_tags {| schemas.TagCreate.name := "urgent" |} sample.offline
    = (Raise (HTTPException 400 "Tag already registered" []), sample.offline) /\
  exists row,
    app.POST_tags {| schemas.TagCreate.name := "garden" |} sample.offline
      = (Ok row, with_tag sample.offline row) /\
    models.Tag.name row = "garden".
Proof.
  split.
  - apply (create_tag_conflict_or_insert
             {| schemas.TagCreate.name := "urgent" |} sample.offline).
    vm_compute. left.
  - destruct (create_tag_conflict_or_insert
                {| schemas.TagCreate.name := "garden" |} sample.offline) as [_ Hnew].
    destruct Hnew as (row & Hrun & Hname & _).
    + vm_compute. intros H.
      repeat (apply elem_of_cons in H as [H|H]; [discriminate|]). inversion H.
    + exists row. split; assumption.
Defined.

(** C9. Starting from a store without the name [n]: creating [n] succeeds and
    [get_tag_by_name n] then returns the created tag; creating [n] a second
    time fails with the 400 conflict response, leaves the world as it was, and
    [get_tag_by_name n] still returns the same tag. *)
Theorem create_then_lookup (tag : schemas.TagCreate.t) (w : World) :
  schemas.TagCreate.name tag ∉ models.Tag.name <$> models.tags (db w) ->
  exists row w1,
    main.create_tag tag w = (Ok row, w1) /\
    models.Tag.name row = schemas.TagCreate.name tag /\
    crud.get_tag_by_name (schemas.TagCreate.name tag) w1 = (Ok (Some row), w1) /\
    main.create_tag tag w1
      = (Raise (HTTPException 400 "Tag already registered" []), w1) /\
    response_status (fst (main.create_tag tag w1)) = 400 /\
    crud.get_tag_by_name (schemas.TagCreate.name tag)
      (snd (main.create_tag tag w1)) = (Ok (Some row), w1).
Proof.
  intros H.
  set (row := {| models.Tag.id := Query.next_id (models.tags (db w));
                 models.Tag.name := schemas.TagCreate.name tag |}).
  assert (Hlookup : crud.get_tag_by_name (schemas.TagCreate.name tag) (with_tag w row)
                    = (Ok (Some row), with_tag w row))
    by (apply (get_tag_by_name_with_tag w row); assumption).
  assert (Hagain : main.create_tag tag (with_tag w row)
                   = (Raise (HTTPException 400 "Tag already registered" []),
                      with_tag w row)).
  { apply create_tag_taken. simpl. rewrite fmap_app. apply elem_of_app. right.
    simpl. left. }
  exists row, (with_tag w row).
  split; [apply create_tag_fresh; assumption|].
  split; [reflexivity|]. split; [exact Hlookup|].
  split; [exact Hagain|]. rewrite Hagain. split; [reflexivity|exact Hlookup].
Qed.

Lemma create_then_lookup_witness :
  exists row w1,
    main.create_tag {| schemas.TagCreate.name := "garden" |} sample.offline = (Ok row, w1) /\
    crud.get_tag_by_name "garden" w1 = (Ok (Some row), w1) /\
    main.create_tag {| schemas.TagCreate.name := "garden" |} w1
      = (Raise (HTTPException 400 "Tag already registered" []), w1).
Proof.
  destruct (create_then_lookup {| schemas.TagCreate.name := "garden" |} sample.offline)
    as (row & w1 & Hcreate & _ & Hget & Hagain & _).
  - vm_compute. intros H.
    repeat (apply elem_of_cons in H as [H|H]; [discriminate|]). inversion H.
  - exists row, w1. auto.
Defined.

(** ** The handler monad *)

Lemma bind_ok {A B} (m : M A) (k : A -> M B) (w w' : World) (a : A) :
  m w = (Ok a, w') -> bind m k w = k a w'.
Proof. unfold bind. intros ->. reflexivity. Qed.

Lemma bind_raise {A B} (m : M A) (k : A -> M B) (w w' : World) (e : exn) :
  m w = (Raise e, w') -> bind m k w = (Raise e, w').
Proof. unfold bind. intros ->. reflexivity. Qed.

Lemma try_ok {A} (body : M A) handler (w w' : World) (a : A) :
  body w = (Ok a, w') -> try_except body handler w = (Ok a, w').
Proof. unfold try_except. intros ->. reflexivity. Qed.

Lemma try_caught {A} (body : M A) handler (h : M A) (w w' : World) (e : exn) :
  body w = (Raise e, w') -> handler e = Some h -> try_except body handler w = h w'.
Proof. unfold try_except. intros -> ->. reflexivity. Qed.

Lemma try_uncaught {A} (body : M A) handler (w w' : World) (e : exn) :
  body w = (Raise e, w') -> handler e = None ->
  try_except body handler w = (Raise e, w').
Proof. unfold try_except. intros -> ->. reflexivity. Qed.

(** Whatever the body does, a handler that answers both client exceptions
    with an [HTTPException] lets no client exception out. *)
Lemma try_except_shields {A} (body : M A) (handler : exn -> option (M A)) (w : World) :
  (forall e, match handler e with
             | Some h => forall w', exists status detail hdrs,
                           fst (h w') = Raise (HTTPException status detail hdrs)
             | None => ~ transport_exception e
             end) ->
  forall e, fst (try_except body handler w) = Raise e -> ~ transport_exception e.
Proof.
  intros Hh e. unfold try_except.
  destruct (body w) as [[a|e0] w']; [discriminate|].
  specialize (Hh e0). destruct (handler e0) as [h|].
  - destruct (Hh w') as (status & detail & hdrs & Heq). rewrite Heq.
    intros [= <-]. exact id.
  - simpl. intros [= <-]. exact Hh.
Qed.

Lemma keeps_ret {A} (a : A) : keeps_db (ret a).
Proof. intros w. reflexivity. Qed.

Lemma keeps_raise {A} (e : exn) : keeps_db (@raise A e).
Proof. intros w. reflexivity. Qed.

Lemma keeps_lift {A} (r : result A) : keeps_db (lift r).
Proof. intros w. reflexivity. Qed.

Lemma keeps_run {A} (q : models.Session -> A) : keeps_db (Query.run q).
Proof. intros w. reflexivity. Qed.

Lemma keeps_bind {A B} (m : M A) (k : A -> M B) :
  keeps_db m -> (forall a, keeps_db (k a)) -> keeps_db (bind m k).
Proof.
  intros Hm Hk w. unfold bind. specialize (Hm w).
  destruct (m w) as [[a|e] w']; simpl in *; [|assumption].
  rewrite Hk. assumption.
Qed.

Lemma keeps_try {A} (body : M A) (handler : exn -> option (M A)) :
  keeps_db body -> (forall e h, handler e = Some h -> keeps_db h) ->
  keeps_db (try_except body handler).
Proof.
  intros Hb Hh w. unfold try_except. specialize (Hb w).
  destruct (body w) as [[a|e] w']; simpl in *; [assumption|].
  destruct (handler e) as [h|] eqn:E; simpl; [|assumption].
  rewrite (Hh e h E). assumption.
Qed.

Lemma keeps_get (url : string) (headers : list (string * string)) :
  keeps_db (httpx.get url headers).
Proof.
  intros w. unfold httpx.get. destruct (httpx.encodable_headers headers); [|reflexivity].
  destruct (provider w _); reflexivity.
Qed.

Lemma keeps_raise_for_status (r : Response) : keeps_db (httpx.raise_for_status r).
Proof. intros w. unfold httpx.raise_for_status. destruct (_ && _); reflexivity. Qed.

Lemma keeps_json (r : Response) : keeps_db (httpx.json r).
Proof. intros w. unfold httpx.json. destruct (json r); reflexivity. Qed.

Lemma keeps_py_get (obj : JSON) (key : string) (default : JSON) :
  keeps_db (py.get obj key default).
Proof.
  intros w. unfold py.get. destruct obj; try reflexivity.
  destruct (dict_get key items); reflexivity.
Qed.

Lemma keeps_py_iter (obj : JSON) : keeps_db (py.iter obj).
Proof. intros w. destruct obj; reflexivity. Qed.

Lemma keeps_py_index {A} (l : list A) (i : nat) : keeps_db (py.index l i).
Proof. intros w. unfold py.index. destruct (l !! i); reflexivity. Qed.

Lemma keeps_for_task_data dtv (items : list JSON) (acc : list schemas.Task.t) :
  keeps_db (main.for_task_data dtv items acc).
Proof.
  revert acc. induction items as [|item items IH]; intros acc; simpl.
  - apply keeps_ret.
  - apply keeps_bind; [apply keeps_lift|]. intros google_task.
    apply keeps_bind; [apply keeps_run|]. intros local_tags. apply IH.
Qed.

Lemma keeps_fetch_and_enrich dtv (token : string) :
  keeps_db (main.fetch_and_enrich dtv token).
Proof.
  unfold main.fetch_and_enrich. apply keeps_try.
  - apply keeps_bind; [apply keeps_get|]. intros response.
    apply keeps_bind; [apply keeps_raise_for_status|]. intros _.
    apply keeps_bind; [apply keeps_json|]. intros body.
    apply keeps_bind; [apply keeps_py_get|]. intros data.
    apply keeps_bind; [apply keeps_py_iter|]. intros items.
    apply keeps_for_task_data.
  - intros e h He. destruct e; try discriminate; injection He as <-.
    + destruct (_ =? _); apply keeps_raise.
    + apply keeps_raise.
Qed.

Lemma keeps_GET_tasks dtv (authorization : option string) :
  keeps_db (app.GET_tasks dtv authorization).
Proof.
  unfold app.GET_tasks. apply keeps_bind.
  - destruct authorization; [apply keeps_ret|apply keeps_raise].
  - intros a. unfold main.get_tasks. destruct (negb _); [apply keeps_raise|].
    apply keeps_bind; [apply keeps_py_index|]. intros token.
    apply keeps_fetch_and_enrich.
Qed.

Lemma keeps_authenticate_google (token_data : schemas.TokenData.t) :
  keeps_db (main.authenticate_google token_data).
Proof.
  unfold main.authenticate_google. apply keeps_try.
  - apply keeps_bind; [apply keeps_get|]. intros response.
    apply keeps_bind; [apply keeps_raise_for_status|]. intros _.
    apply keeps_bind; [apply keeps_json|]. intros user_data. apply keeps_lift.
  - intros e h He. destruct e; try discriminate; injection He as <-.
    + destruct (_ =? _); apply keeps_raise.
    + apply keeps_raise.
Qed.

Lemma keeps_get_tags (skip limit : Z) : keeps_db (crud.get_tags skip limit).
Proof.
  unfold crud.get_tags. apply keeps_bind; [apply keeps_run|]. intros rows.
  apply keeps_bind; [apply keeps_lift|]. intros rows1.
  apply keeps_bind; [apply keeps_lift|]. intros rows2. apply keeps_ret.
Qed.

Lemma keeps_read_tags (skip limit : Z) : keeps_db (main.read_tags skip limit).
Proof.
  unfold main.read_tags. apply keeps_bind; [apply keeps_get_tags|].
  intros tags. apply keeps_ret.
Qed.

(** ** The schema's constraints along the operations *)

Lemma constraints_with_tag (w : World) (row : models.Tag.t) :
  models.constraints (db w) ->
  models.Tag.name row ∉ models.Tag.name <$> models.tags (db w) ->
  models.Tag.id row ∉ models.Tag.id <$> models.tags (db w) ->
  models.constraints (db (with_tag w row)).
Proof.
  intros [Hpk Hname Hassoc] Hn Hi. split; simpl; [| |assumption].
  - rewrite fmap_app. apply NoDup_app. split; [assumption|]. split.
    + intros x Hx Hx'. apply list_elem_of_singleton in Hx'. subst. contradiction.
    + apply NoDup_singleton.
  - rewrite fmap_app. apply NoDup_app. split; [assumption|]. split.
    + intros x Hx Hx'. apply list_elem_of_singleton in Hx'. subst. contradiction.
    + apply NoDup_singleton.
Qed.

Lemma create_tag_world (tag : schemas.TagCreate.t) (w : World) :
  snd (main.create_tag tag w) = w \/
  ((schemas.TagCreate.name tag ∉ models.Tag.name <$> models.tags (db w)) /\
   snd (main.create_tag tag w) =
   with_tag w {| models.Tag.id := Query.next_id (models.tags (db w));
                 models.Tag.name := schemas.TagCreate.name tag |}).
Proof.
  destruct (decide (schemas.TagCreate.name tag ∈ models.Tag.name <$> models.tags (db w)))
    as [Hin|Hout].
  - left. rewrite create_tag_taken by assumption. reflexivity.
  - right. split; [assumption|]. rewrite create_tag_fresh by assumption. reflexivity.
Qed.

Lemma serve_constraints dtv (r : app.request) (w : World) :
  models.constraints (db w) ->
  models.constraints (db (app.serve dtv r w)) /\
  models.task_tags (db (app.serve dtv r w)) = models.task_tags (db w).
Proof.
  intros Hc. destruct r as [token_data|authorization|tag|skip limit]; unfold app.serve.
  - unfold app.POST_auth_google. rewrite keeps_authenticate_google. auto.
  - rewrite keeps_GET_tasks. auto.
  - unfold app.POST_tags.
    destruct (create_tag_world tag w) as [->|[Hfresh ->]]; [auto|].
    split; [|reflexivity].
    apply constraints_with_tag; [assumption|exact Hfresh|apply next_id_fresh].
  - unfold app.GET_tags. rewrite keeps_read_tags. auto.
Qed.

Lemma serve_all_constraints dtv (rs : list app.request) (w : World) :
  models.constraints (db w) ->
  models.constraints (db (app.serve_all dtv rs w)) /\
  models.task_tags (db (app.serve_all dtv rs w)) = models.task_tags (db w).
Proof.
  revert w. induction rs as [|r rs IH]; intros w Hc; [auto|].
  unfold app.serve_all in *. simpl.
  destruct (serve_constraints dtv r w Hc) as [Hc' Heq].
  destruct (IH _ Hc') as [Hc'' Heq']. split; [assumption|congruence].
Qed.

Lemma get_tags_for_task_NoDup (task_id : string) (w : World) :
  models.constraints (db w) ->
  exists rows, crud.get_tags_for_task task_id w = (Ok rows, w) /\ NoDup rows.
Proof.
  intros [Hpk _ Hassoc]. eexists. split; [apply get_tags_for_task_run|].
  apply NoDup_fmap_2_strong.
  - intros [t1 a1] [t2 a2] H1 H2 Heq. simpl in Heq. subst t2.
    apply list_elem_of_filter in H1 as [Hk1 H1]. apply list_elem_of_filter in H2 as [Hk2 H2].
    apply join_elem in H1 as (_ & _ & Hid1). apply join_elem in H2 as (_ & _ & Hid2).
    destruct a1, a2. simpl in *. congruence.
  - apply NoDup_filter. apply join_NoDup; [|assumption].
    eapply NoDup_fmap_1. exact Hpk.
Qed.

(** C10. On a store that satisfies the schema's constraints (primary key of
    [tags], composite primary key of [task_tags]), the tags returned for a task
    id hold no tag twice. Every request served keeps the constraints and leaves
    the association table as it was, so the same holds after any sequence of
    requests. *)
Theorem tags_for_task_distinct dtv (w : World) :
  models.constraints (db w) ->
  (forall task_id, exists rows,
      crud.get_tags_for_task task_id w = (Ok rows, w) /\ NoDup rows) /\
  (forall rs : list app.request,
      let w' := app.serve_all dtv rs w in
      models.constraints (db w') /\
      models.task_tags (db w') = models.task_tags (db w) /\
      forall task_id, exists rows,
        crud.get_tags_for_task task_id w' = (Ok rows, w') /\ NoDup rows).
Proof.
  intros Hc. split.
  - intros task_id. apply get_tags_for_task_NoDup. assumption.
  - intros rs w'. destruct (serve_all_constraints dtv rs w Hc) as [Hc' Heq].
    split; [assumption|]. split; [assumption|].
    intros task_id. apply get_tags_for_task_NoDup. assumption.
Qed.

Lemma sample_store_constraints : models.constraints sample.store.
Proof.
  split; vm_compute; repeat (apply NoDup_cons; split;
    [intros H; repeat (apply elem_of_cons in H as [H|H]; [discriminate|]); inversion H|]);
  apply NoDup_nil_2.
Defined.

Lemma tags_for_task_distinct_witness :
  exists rows,
    crud.get_tags_for_task "t1" sample.offline = (Ok rows, sample.offline) /\ NoDup rows.
Proof.
  exact (proj1 (tags_for_task_distinct sample.no_datetime sample.offline
                  sample_store_constraints) "t1").
Defined.

(** ** The external calls *)

Lemma httpx_get_run (url : string) (headers : list (string * string)) (w : World) :
  httpx.encodable_headers headers = true ->
  httpx.get url headers w =
  (match provider w {| url := url; headers := headers |} with
   | Responded r => Ok r
   | Unreachable message => Raise (RequestError message)
   end, with_call w {| url := url; headers := headers |}).
Proof. unfold httpx.get. intros ->. destruct (provider w _); reflexivity. Qed.

Lemma httpx_get_unencodable (url : string) (headers : list (string * string))
    (w : World) :
  httpx.encodable_headers headers = false ->
  httpx.get url headers w = (Raise UnicodeEncodeError, w).
Proof. unfold httpx.get. intros ->. reflexivity. Qed.

(** The one header both handlers send encodes exactly when the token does. *)
Lemma bearer_header_encodable (token : string) :
  httpx.encodable_headers [("Authorization", "Bearer " +:+ token)]
  = httpx.encodable token.
Proof.
  unfold httpx.encodable_headers.
  change ("Bearer " +:+ token) with (String "B" (String "e" (String "a" (String "r"
    (String "e" (String "r" (String " " token))))))).
  cbn. rewrite !andb_true_r. reflexivity.
Qed.

Lemma raise_for_status_ok (r : Response) (w : World) :
  is_success r -> httpx.raise_for_status r w = (Ok tt, w).
Proof.
  unfold is_success, httpx.raise_for_status. intros [H1 H2].
  destruct (Z.leb_spec 200 (status_code r)); [|lia].
  destruct (Z.leb_spec (status_code r) 299); [|lia]. reflexivity.
Qed.

Lemma raise_for_status_error (r : Response) (w : World) :
  ~ is_success r -> httpx.raise_for_status r w = (Raise (HTTPStatusError r), w).
Proof.
  unfold is_success, httpx.raise_for_status. intros H.
  destruct (Z.leb_spec 200 (status_code r));
    destruct (Z.leb_spec (status_code r) 299); try reflexivity. lia.
Qed.

(** Proof steps for a [do] block: run the first computation to a value, or to
    an exception. *)
Ltac step_ok tac := etransitivity; [eapply bind_ok; tac|].
Ltac step_raise tac := eapply bind_raise; tac.
Ltac call_answers H :=
  rewrite httpx_get_run by (rewrite bearer_header_encodable; assumption);
  unfold tasks_request, userinfo_request in H; rewrite H; reflexivity.

Section fetch.
Variable datetime_validate : JSON -> option datetime.
Variables (token : string) (w : World).
Hypothesis token_encodes : httpx.encodable token = true.

Lemma fetch_unreachable (message : string) :
  provider w (tasks_request token) = Unreachable message ->
  main.fetch_and_enrich datetime_validate token w =
  (Raise (HTTPException 400
            ("An error occurred while requesting tasks from Google: " +:+ message) []),
   with_call w (tasks_request token)).
Proof.
  intros H. unfold main.fetch_and_enrich.
  etransitivity;
    [eapply try_caught; [step_raise ltac:(call_answers H)|reflexivity]|reflexivity].
Qed.

Lemma fetch_status_error (r : Response) :
  provider w (tasks_request token) = Responded r -> ~ is_success r ->
  main.fetch_and_enrich datetime_validate token w =
  (Raise (if status_code r =? 401
          then HTTPException 401 "Invalid or expired Google token." []
          else HTTPException 400
                 ("Failed to fetch tasks from Google: " +:+ text r) []),
   with_call w (tasks_request token)).
Proof.
  intros H Hs. unfold main.fetch_and_enrich.
  etransitivity;
    [eapply try_caught;
       [step_ok ltac:(call_answers H);
        step_raise ltac:(apply raise_for_status_error; assumption)
       |reflexivity]|].
  simpl. destruct (status_code r =? 401); reflexivity.
Qed.

(** On a successful response whose body is an object, the outcome is the
    outcome of the loop over what [items] holds. *)
Lemma fetch_items (r : Response) (body : list (string * JSON)) (items : list JSON)
    (res : result (list schemas.Task.t)) (w2 : World) :
  provider w (tasks_request token) = Responded r -> is_success r ->
  json r = Some (JDict body) ->
  default (JList []) (dict_get "items" body) = JList items ->
  main.for_task_data datetime_validate items [] (with_call w (tasks_request token))
    = (res, w2) ->
  (forall e, res = Raise e -> ~ transport_exception e) ->
  main.fetch_and_enrich datetime_validate token w = (res, w2).
Proof.
  intros H Hs Hj Hi Hloop Hres. unfold main.fetch_and_enrich.
  assert (Hget : py.get (JDict body) "items" (JList []) = ret (JList items)).
  { unfold py.get. destruct (dict_get "items" body); simpl in Hi; rewrite Hi;
      reflexivity. }
  assert (Hbody :
    (do response <- httpx.get "https://www.googleapis.com/tasks/v1/lists/@default/tasks"
                      [("Authorization", "Bearer " +:+ token)];
     do _ <- httpx.raise_for_status response;
     do body <- httpx.json response;
     do google_tasks_data <- py.get body "items" (JList []);
     do items <- py.iter google_tasks_data;
     main.for_task_data datetime_validate items []) w = (res, w2)).
  { step_ok ltac:(call_answers H).
    step_ok ltac:(apply raise_for_status_ok; assumption).
    step_ok ltac:(unfold httpx.json; rewrite Hj; reflexivity).
    step_ok ltac:(rewrite Hget; reflexivity).
    step_ok ltac:(reflexivity). exact Hloop. }
  destruct res as [tasks|e].
  - etransitivity; [eapply try_ok; exact Hbody|reflexivity].
  - etransitivity; [eapply try_uncaught; [exact Hbody|]|reflexivity].
    specialize (Hres e eq_refl). destruct e; simpl in Hres; tauto.
Qed.

Lemma fetch_shields (e : exn) :
  fst (main.fetch_and_enrich datetime_validate token w) = Raise e ->
  ~ transport_exception e.
Proof.
  unfold main.fetch_and_enrich. apply try_except_shields.
  intros e0. destruct e0; simpl; try tauto.
  - intros w0. destruct (status_code response =? 401); eauto.
  - intros w0. eauto.
Qed.

End fetch.

Section authenticate.
Variables (token_data : schemas.TokenData.t) (w : World).
Hypothesis token_encodes :
  httpx.encodable (schemas.TokenData.access_token token_data) = true.

Lemma authenticate_unreachable (message : string) :
  provider w (userinfo_request (schemas.TokenData.access_token token_data))
    = Unreachable message ->
  main.authenticate_google token_data w =
  (Raise (HTTPException 400
            ("An error occurred while requesting user info from Google: "
               +:+ message) []),
   with_call w (userinfo_request (schemas.TokenData.access_token token_data))).
Proof.
  intros H. unfold main.authenticate_google.
  etransitivity;
    [eapply try_caught; [step_raise ltac:(call_answers H)|reflexivity]|reflexivity].
Qed.

Lemma authenticate_status_error (r : Response) :
  provider w (userinfo_request (schemas.TokenData.access_token token_data))
    = Responded r ->
  ~ is_success r ->
  main.authenticate_google token_data w =
  (Raise (if status_code r =? 401
          then HTTPException 401 "Invalid or expired Google token."
                 [("WWW-Authenticate", "Bearer")]
          else HTTPException 400
                 ("Failed to fetch user info from Google: " +:+ text r) []),
   with_call w (userinfo_request (schemas.TokenData.access_token token_data))).
Proof.
  intros H Hs. unfold main.authenticate_google.
  etransitivity;
    [eapply try_caught;
       [step_ok ltac:(call_answers H);
        step_raise ltac:(apply raise_for_status_error; assumption)
       |reflexivity]|].
  simpl. destruct (status_code r =? 401); reflexivity.
Qed.

Lemma authenticate_shields (e : exn) :
  fst (main.authenticate_google token_data w) = Raise e -> ~ transport_exception e.
Proof.
  unfold main.authenticate_google. apply try_except_shields.
  intros e0. destruct e0; simpl; try tauto.
  - intros w0. destruct (status_code response =? 401); eauto.
  - intros w0. eauto.
Qed.

End authenticate.

(** ** Validation of provider items *)

Section validation.
Variable datetime_validate : JSON -> option datetime.

Lemma model_validate_raise (task_data : JSON) (e : exn) :
  schemas.GoogleTask.model_validate datetime_validate task_data = Raise e ->
  e = ValidationError.
Proof.
  unfold schemas.GoogleTask.model_validate. destruct task_data; try congruence.
  destruct (schemas.required_str "id" items);
    destruct (schemas.required_str "title" items);
    destruct (schemas.required_str "status" items);
    destruct (schemas.GoogleTask.optional_datetime datetime_validate "due" items);
    destruct (schemas.optional_str "notes" items); congruence.
Qed.

Lemma required_str_missing (key : string) (data : list (string * JSON)) :
  dict_get key data = None -> schemas.required_str key data = Raise ValidationError.
Proof. unfold schemas.required_str. intros ->. reflexivity. Qed.





Lemma for_task_data_cons (task_data : JSON) (rest : list JSON)
    (enriched_tasks : list schemas.Task.t) :
  main.for_task_data datetime_validate (task_data :: rest) enriched_tasks =
  (do google_task <-
     lift (schemas.GoogleTask.model_validate datetime_validate task_data);
   do local_tags <- crud.get_tags_for_task (schemas.GoogleTask.id google_task);
   main.for_task_data datetime_validate rest
     (enriched_tasks ++ [schemas.Task.init google_task local_tags])).
Proof. reflexivity. Qed.


Lemma for_task_data_invalid (items : list JSON) (item : JSON) (e : exn)
    (acc : list schemas.Task.t) (w : World) :
  item ∈ items ->
  schemas.GoogleTask.model_validate datetime_validate item = Raise e ->
  main.for_task_data datetime_validate items acc w = (Raise ValidationError, w).
Proof.
  intros Hin Hbad. revert acc.
  induction items as [|item0 items IH]; intros acc; [inversion Hin|].
  rewrite for_task_data_cons.
  destruct (schemas.GoogleTask.model_validate datetime_validate item0)
    as [google_task|e0] eqn:E.
  - step_ok ltac:(reflexivity).
    step_ok ltac:(apply get_tags_for_task_run).
    apply IH. apply elem_of_cons in Hin as [->|Hin]; [congruence|assumption].
  - pose proof (model_validate_raise _ _ E) as ->.
    step_raise ltac:(reflexivity).
Qed.


(** With a header that starts with [Bearer ], the request goes on to the
    provider with the piece between the first and the second space. *)
Lemma GET_tasks_bearer (authorization token : string) (w : World) :
  py.startswith authorization "Bearer " = true ->
  py.split " " authorization !! 1%nat = Some token ->
  app.GET_tasks datetime_validate (Some authorization) w
    = main.fetch_and_enrich datetime_validate token w.
Proof.
  intros Hs Ht. unfold app.GET_tasks.
  step_ok ltac:(reflexivity). unfold main.get_tasks. rewrite Hs.
  step_ok ltac:(unfold py.index; rewrite Ht; reflexivity). reflexivity.
Qed.

Lemma GET_tasks_scheme (authorization : string) (w : World) :
  py.startswith authorization "Bearer " = false ->
  app.GET_tasks datetime_validate (Some authorization) w
    = (Raise (HTTPException 401 "Invalid authorization scheme." []), w).
Proof.
  intros Hs. unfold app.GET_tasks.
  step_ok ltac:(reflexivity). unfold main.get_tasks. rewrite Hs. reflexivity.
Qed.

End validation.

(** ** [GET /tasks] and [POST /auth/google] *)



(** C2. When the provider call of [GET /tasks] is made and fails (the
    transport raises, or the status is not a success), the request ends in an
    [HTTPException] with status 401 or 400: no list of tasks, partial or
    whole, is returned, and the store is untouched. *)
Theorem get_tasks_all_or_nothing dtv (authorization token : string) (w : World) :
  py.startswith authorization "Bearer " = true ->
  py.split " " authorization !! 1%nat = Some token ->
  httpx.encodable token = true ->
  call_fails (provider w (tasks_request token)) ->
  exists status detail,
    app.GET_tasks dtv (Some authorization) w
      = (Raise (HTTPException status detail []), with_call w (tasks_request token)) /\
    (status = 401 \/ status = 400) /\
    (forall tasks, fst (app.GET_tasks dtv (Some authorization) w) <> Ok tasks) /\
    db (snd (app.GET_tasks dtv (Some authorization) w)) = db w.
Proof.
  intros Hs Ht Henc Hfail. rewrite (GET_tasks_bearer dtv _ _ w Hs Ht).
  destruct (provider w (tasks_request token)) as [r|message] eqn:Hp; simpl in Hfail.
  - rewrite (fetch_status_error dtv token w Henc r Hp Hfail).
    destruct (status_code r =? 401); eexists _, _;
      (split; [reflexivity|]); (split; [auto|]); (split; [discriminate|reflexivity]).
  - rewrite (fetch_unreachable dtv token w Henc message Hp).
    eexists _, _. split; [reflexivity|]. split; [auto|]. split; [discriminate|reflexivity].
Qed.

Lemma get_tasks_all_or_nothing_witness :
  exists status detail,
    app.GET_tasks sample.no_datetime (Some "Bearer abc")
      (sample.world (sample.answer 503 [sample.milk]))
    = (Raise (HTTPException status detail []),
       with_call (sample.world (sample.answer 503 [sample.milk])) (tasks_request "abc")) /\
    (status = 401 \/ status = 400).
Proof.
  destruct (get_tasks_all_or_nothing sample.no_datetime "Bearer abc" "abc"
              (sample.world (sample.answer 503 [sample.milk])))
    as (status & detail & Hrun & Hstatus & _); try reflexivity.
  - simpl. unfold is_success. simpl. lia.
  - exists status, detail. split; assumption.
Defined.

Lemma fetch_call_fails dtv (token : string) (w : World) :
  httpx.encodable token = true ->
  call_fails (provider w (tasks_request token)) ->
  exists status detail hdrs,
    fst (main.fetch_and_enrich dtv token w) = Raise (HTTPException status detail hdrs) /\
    (status = 401 \/ status = 400).
Proof.
  intros Henc Hfail.
  destruct (provider w (tasks_request token)) as [r|message] eqn:Hp; simpl in Hfail.
  - rewrite (fetch_status_error dtv token w Henc r Hp Hfail).
    destruct (status_code r =? 401); eexists _, _, _; (split; [reflexivity|auto]).
  - rewrite (fetch_unreachable dtv token w Henc message Hp).
    eexists _, _, _. split; [reflexivity|auto].
Qed.

Lemma authenticate_call_fails (token_data : schemas.TokenData.t) (w : World) :
  httpx.encodable (schemas.TokenData.access_token token_data) = true ->
  call_fails (provider w
                (userinfo_request (schemas.TokenData.access_token token_data))) ->
  exists status detail hdrs,
    fst (main.authenticate_google token_data w)
      = Raise (HTTPException status detail hdrs) /\
    (status = 401 \/ status = 400).
Proof.
  intros Henc Hfail.
  destruct (provider w _) as [r|message] eqn:Hp; simpl in Hfail.
  - rewrite (authenticate_status_error token_data w Henc r Hp Hfail).
    destruct (status_code r =? 401); eexists _, _, _; (split; [reflexivity|auto]).
  - rewrite (authenticate_unreachable token_data w Henc message Hp).
    eexists _, _, _. split; [reflexivity|auto].
Qed.

(** C4. For the external call made by [POST /auth/google] and the one made
    by [GET /tasks] (the token encodes, so the call is made): a provider status
    401 gives a 401 response; any other 4xx or 5xx status gives a 400 response
    whose detail ends with the upstream body; a transport failure gives a 400
    response; so a call that fails always ends in an [HTTPException] with
    status 401 or 400. And whatever the token, the request never ends in a raw
    exception of the HTTP client. *)
Theorem external_call_error_mapping dtv (w : World) :
  (forall token_data : schemas.TokenData.t,
     let request := userinfo_request (schemas.TokenData.access_token token_data) in
     let outcome := fst (app.POST_auth_google token_data w) in
     (httpx.encodable (schemas.TokenData.access_token token_data) = true ->
      (forall r, provider w request = Responded r -> status_code r = 401 ->
         outcome = Raise (HTTPException 401 "Invalid or expired Google token."
                            [("WWW-Authenticate", "Bearer")])) /\
      (forall r, provider w request = Responded r ->
         400 <= status_code r <= 599 -> status_code r <> 401 ->
         outcome = Raise (HTTPException 400
                            ("Failed to fetch user info from Google: " +:+ text r) [])) /\
      (forall message, provider w request = Unreachable message ->
         outcome = Raise (HTTPException 400
                            ("An error occurred while requesting user info from Google: "
                               +:+ message) [])) /\
      (call_fails (provider w request) ->
         exists status detail hdrs,
           outcome = Raise (HTTPException status detail hdrs) /\
           (status = 401 \/ status = 400))) /\
     (forall e, outcome = Raise e -> ~ transport_exception e)) /\
  (forall authorization token : string,
     py.startswith authorization "Bearer " = true ->
     py.split " " authorization !! 1%nat = Some token ->
     let request := tasks_request token in
     let outcome := fst (app.GET_tasks dtv (Some authorization) w) in
     (httpx.encodable token = true ->
      (forall r, provider w request = Responded r -> status_code r = 401 ->
         outcome = Raise (HTTPException 401 "Invalid or expired Google token." [])) /\
      (forall r, provider w request = Responded r ->
         400 <= status_code r <= 599 -> status_code r <> 401 ->
         outcome = Raise (HTTPException 400
                            ("Failed to fetch tasks from Google: " +:+ text r) [])) /\
      (forall message, provider w request = Unreachable message ->
         outcome = Raise (HTTPException 400
                            ("An error occurred while requesting tasks from Google: "
                               +:+ message) [])) /\
      (call_fails (provider w request) ->
         exists status detail hdrs,
           outcome = Raise (HTTPException status detail hdrs) /\
           (status = 401 \/ status = 400))) /\
     (forall e, outcome = Raise e -> ~ transport_exception e)).
Proof.
  split.
  - intros token_data request outcome. subst request outcome.
    unfold app.POST_auth_google. split.
    + intros Henc. repeat split.
      * intros r Hp H401. rewrite (authenticate_status_error token_data w Henc r Hp).
        -- simpl. rewrite H401. reflexivity.
        -- unfold is_success. lia.
      * intros r Hp Hrange Hne.
        rewrite (authenticate_status_error token_data w Henc r Hp).
        -- simpl. destruct (Z.eqb_spec (status_code r) 401); [contradiction|reflexivity].
        -- unfold is_success. lia.
      * intros message Hp. rewrite (authenticate_unreachable token_data w Henc message Hp).
        reflexivity.
      * apply authenticate_call_fails. assumption.
    + intros e. apply authenticate_shields.
  - intros authorization token Hs Ht request outcome. subst request outcome.
    rewrite (GET_tasks_bearer dtv _ _ w Hs Ht). split.
    + intros Henc. repeat split.
      * intros r Hp H401. rewrite (fetch_status_error dtv token w Henc r Hp).
        -- simpl. rewrite H401. reflexivity.
        -- unfold is_success. lia.
      * intros r Hp Hrange Hne. rewrite (fetch_status_error dtv token w Henc r Hp).
        -- simpl. destruct (Z.eqb_spec (status_code r) 401); [contradiction|reflexivity].
        -- unfold is_success. lia.
      * intros message Hp. rewrite (fetch_unreachable dtv token w Henc message Hp).
        reflexivity.
      * apply fetch_call_fails. assumption.
    + intros e. apply fetch_shields.
Qed.

Lemma external_call_error_mapping_witness :
  fst (app.GET_tasks sample.no_datetime (Some "Bearer abc")
         (sample.world (sample.answer 401 [])))
    = Raise (HTTPException 401 "Invalid or expired Google token." []) /\
  fst (app.POST_auth_google {| schemas.TokenData.access_token := "abc" |}
         (sample.world (sample.answer 503 [])))
    = Raise (HTTPException 400 "Failed to fetch user info from Google: body" []) /\
  fst (app.GET_tasks sample.no_datetime (Some "Bearer abc") sample.offline)
    = Raise (HTTPException 400
               "An error occurred while requesting tasks from Google: timed out" []).
Proof.
  split; [|split].
  - destruct (external_call_error_mapping sample.no_datetime
                (sample.world (sample.answer 401 []))) as [_ Htasks].
    destruct (Htasks "Bearer abc" "abc" eq_refl eq_refl) as [Hmap _].
    destruct (Hmap eq_refl) as (H401 & _).
    apply (H401 (sample.response 401 [])); reflexivity.
  - destruct (external_call_error_mapping sample.no_datetime
                (sample.world (sample.answer 503 []))) as [Hauth _].
    destruct (Hauth {| schemas.TokenData.access_token := "abc" |}) as [Hmap _].
    destruct (Hmap eq_refl) as (_ & Hother & _).
    apply (Hother (sample.response 503 [])); [reflexivity|simpl; lia|simpl; lia].
  - destruct (external_call_error_mapping sample.no_datetime sample.offline)
      as [_ Htasks].
    destruct (Htasks "Bearer abc" "abc" eq_refl eq_refl) as [Hmap _].
    destruct (Hmap eq_refl) as (_ & _ & Hnet & _).
    apply (Hnet "timed out"). reflexivity.
Defined.




(** ** The authorization header of [GET /tasks] *)

(** C6 (the case the code misses). A [GET /tasks] request that carries no
    [Authorization] header is rejected while the request is parsed, with
    status 422 and not 401; the handler does not run, so no external call is
    made. *)
Theorem get_tasks_missing_header dtv (w : World) :
  app.GET_tasks dtv None w = (Raise RequestValidationError, w) /\
  response_status (fst (app.GET_tasks dtv None w)) = 422 /\
  sent (snd (app.GET_tasks dtv None w)) = sent w.
Proof. repeat split. Qed.

(** X4. A header that does not start with [Bearer ] is answered with 401 by
    the handler itself, before any external call: the log of calls is as
    before. *)
Lemma get_tasks_malformed_header dtv (authorization : string) (w : World) :
  py.startswith authorization "Bearer " = false ->
  app.GET_tasks dtv (Some authorization) w
    = (Raise (HTTPException 401 "Invalid authorization scheme." []), w) /\
  response_status (fst (app.GET_tasks dtv (Some authorization) w)) = 401 /\
  sent (snd (app.GET_tasks dtv (Some authorization) w)) = sent w.
Proof.
  intros H. rewrite (GET_tasks_scheme dtv authorization w H). repeat split.
Qed.

(** The first [get_tasks] (lines 92-151) stops at line 111, before its
    external call, whatever credentials it is given. *)
Lemma first_get_tasks_raises dtv (credentials : main.first.HTTPAuthorizationCredentials)
    (w : World) :
  main.first.get_tasks dtv credentials w = (Raise AttributeError, w).
Proof. reflexivity. Qed.


(** * Further properties of the handlers and the store operations *)

(** ** What a request does to the world *)

Lemma world_ret {A} (a : A) : keeps_world (ret a).
Proof. intros w. reflexivity. Qed.

Lemma world_raise {A} (e : exn) : keeps_world (@raise A e).
Proof. intros w. reflexivity. Qed.

Lemma world_lift {A} (r : result A) : keeps_world (lift r).
Proof. intros w. reflexivity. Qed.

Lemma world_run {A} (q : models.Session -> A) : keeps_world (Query.run q).
Proof. intros w. reflexivity. Qed.

Lemma world_bind {A B} (m : M A) (k : A -> M B) :
  keeps_world m -> (forall a, keeps_world (k a)) -> keeps_world (bind m k).
Proof.
  intros Hm Hk w. unfold bind. specialize (Hm w).
  destruct (m w) as [[a|e] w1]; simpl in *; subst; [apply Hk|reflexivity].
Qed.

Lemma world_raise_for_status (r : Response) : keeps_world (httpx.raise_for_status r).
Proof. intros w. unfold httpx.raise_for_status. destruct (_ && _); reflexivity. Qed.

Lemma world_json (r : Response) : keeps_world (httpx.json r).
Proof. intros w. unfold httpx.json. destruct (json r); reflexivity. Qed.

Lemma world_py_get (obj : JSON) (key : string) (default : JSON) :
  keeps_world (py.get obj key default).
Proof.
  intros w. unfold py.get. destruct obj; try reflexivity.
  destruct (dict_get key items); reflexivity.
Qed.

Lemma world_py_iter (obj : JSON) : keeps_world (py.iter obj).
Proof. intros w. destruct obj; reflexivity. Qed.

Lemma world_for_task_data dtv (items : list JSON) (acc : list schemas.Task.t) :
  keeps_world (main.for_task_data dtv items acc).
Proof.
  revert acc. induction items as [|item items IH]; intros acc.
  - apply world_ret.
  - rewrite for_task_data_cons.
    apply world_bind; [apply world_lift|]. intros google_task.
    apply world_bind; [apply world_run|]. intros local_tags. apply IH.
Qed.

(** A [try] block that opens with one step, goes on without touching the
    world, and whose handlers do not touch it either, leaves the world where
    the first step left it. *)
Lemma world_try_after {A B} (m : M A) (k : A -> M B)
    (handler : exn -> option (M B)) (w : World) :
  (forall a, keeps_world (k a)) ->
  (forall e h, handler e = Some h -> keeps_world h) ->
  snd (try_except (bind m k) handler w) = snd (m w).
Proof.
  intros Hk Hh. unfold try_except, bind.
  destruct (m w) as [[a|e] w1]; simpl.
  - specialize (Hk a w1). destruct (k a w1) as [[b|e] w2]; simpl in *; subst;
      [reflexivity|].
    destruct (handler e) as [h|] eqn:E; [apply (Hh e h E)|reflexivity].
  - destruct (handler e) as [h|] eqn:E; [apply (Hh e h E)|reflexivity].
Qed.

Lemma fetch_unencodable dtv (token : string) (w : World) :
  httpx.encodable token = false ->
  main.fetch_and_enrich dtv token w = (Raise UnicodeEncodeError, w).
Proof.
  intros Henc. unfold main.fetch_and_enrich.
  etransitivity; [eapply try_uncaught|reflexivity]; [|reflexivity].
  step_raise ltac:(apply httpx_get_unencodable; rewrite bearer_header_encodable;
                   assumption).
Qed.

Lemma authenticate_unencodable (token_data : schemas.TokenData.t) (w : World) :
  httpx.encodable (schemas.TokenData.access_token token_data) = false ->
  main.authenticate_google token_data w = (Raise UnicodeEncodeError, w).
Proof.
  intros Henc. unfold main.authenticate_google.
  etransitivity; [eapply try_uncaught|reflexivity]; [|reflexivity].
  step_raise ltac:(apply httpx_get_unencodable; rewrite bearer_header_encodable;
                   assumption).
Qed.

Lemma fetch_world dtv (token : string) (w : World) :
  httpx.encodable token = true ->
  snd (main.fetch_and_enrich dtv token w) = with_call w (tasks_request token).
Proof.
  intros Henc. unfold main.fetch_and_enrich. rewrite world_try_after.
  - rewrite httpx_get_run by (rewrite bearer_header_encodable; assumption).
    reflexivity.
  - intros response.
    apply world_bind; [apply world_raise_for_status|]. intros _.
    apply world_bind; [apply world_json|]. intros body.
    apply world_bind; [apply world_py_get|]. intros data.
    apply world_bind; [apply world_py_iter|]. intros items.
    apply world_for_task_data.
  - intros e h He. destruct e; try discriminate; injection He as <-.
    + destruct (_ =? _); apply world_raise.
    + apply world_raise.
Qed.

(** X1. [GET /tasks] never writes to the store and leaves the provider as it
    is. It contacts the provider exactly once, with the token taken from the
    header, when the header starts with [Bearer ] and the token encodes as
    ASCII. It contacts nobody when the header is absent or starts otherwise,
    and nobody when the token does not encode: the request then ends in
    [UnicodeEncodeError]. *)
Theorem get_tasks_calls_provider_once dtv (authorization : option string) (w : World) :
  let w' := snd (app.GET_tasks dtv authorization w) in
  db w' = db w /\ provider w' = provider w /\
  match authorization with
  | Some header =>
      if py.startswith header "Bearer "
      then exists token,
             py.split " " header !! 1%nat = Some token /\
             if httpx.encodable token
             then sent w' = (sent w ++ [tasks_request token])%list
             else sent w' = sent w /\
                  fst (app.GET_tasks dtv authorization w) = Raise UnicodeEncodeError
      else sent w' = sent w
  | None => sent w' = sent w
  end.
Proof.
  destruct authorization as [header|]; [|repeat split].
  destruct (py.startswith header "Bearer ") eqn:Hs.
  - destruct (bearer_token_exists header Hs) as [token Ht].
    rewrite (GET_tasks_bearer dtv header token w Hs Ht).
    destruct (httpx.encodable token) eqn:Henc.
    + rewrite (fetch_world dtv token w Henc).
      repeat split. exists token. split; [assumption|]. rewrite Henc. reflexivity.
    + rewrite (fetch_unencodable dtv token w Henc).
      repeat split. exists token. split; [assumption|]. rewrite Henc. split; reflexivity.
  - rewrite (GET_tasks_scheme dtv header w Hs). repeat split.
Qed.

(** X2. [POST /auth/google] with an access token that encodes as ASCII sends
    exactly one request, to the userinfo endpoint with [Bearer <access_token>],
    whatever the provider answers, and leaves the store and the provider as
    they are. With a token that does not encode it sends nothing, changes
    nothing, and ends in [UnicodeEncodeError]. *)
Theorem authenticate_google_calls_provider_once (token_data : schemas.TokenData.t)
    (w : World) :
  (httpx.encodable (schemas.TokenData.access_token token_data) = true ->
   snd (app.POST_auth_google token_data w)
   = with_call w (userinfo_request (schemas.TokenData.access_token token_data))) /\
  (httpx.encodable (schemas.TokenData.access_token token_data) = false ->
   app.POST_auth_google token_data w = (Raise UnicodeEncodeError, w)).
Proof.
  split.
  - intros Henc.
    unfold app.POST_auth_google, main.authenticate_google. rewrite world_try_after.
    + rewrite httpx_get_run by (rewrite bearer_header_encodable; assumption).
      reflexivity.
    + intros response.
      apply world_bind; [apply world_raise_for_status|]. intros _.
      apply world_bind; [apply world_json|]. intros user_data. apply world_lift.
    + intros e h He. destruct e; try discriminate; injection He as <-.
      * destruct (_ =? _); apply world_raise.
      * apply world_raise.
  - apply authenticate_unencodable.
Qed.

Lemma authenticate_google_calls_provider_once_witness :
  snd (app.POST_auth_google sample_auth.token_data sample.offline)
  = with_call sample.offline (userinfo_request "abc") /\
  app.POST_auth_google
    {| schemas.TokenData.access_token := String (Ascii.ascii_of_nat 233) "" |}
    sample.offline
  = (Raise UnicodeEncodeError, sample.offline).
Proof.
  split.
  - exact (proj1 (authenticate_google_calls_provider_once sample_auth.token_data
                    sample.offline) eq_refl).
  - exact (proj2 (authenticate_google_calls_provider_once
                    {| schemas.TokenData.access_token :=
                         String (Ascii.ascii_of_nat 233) "" |}
                    sample.offline) eq_refl).
Defined.

(** ** The bearer token of [GET /tasks] *)

Lemma split_app_sep (sep : ascii) (t u : string) :
  sep ∉ list_ascii_of_string t ->
  py.split sep (t +:+ String sep u) = t :: py.split sep u.
Proof.
  induction t as [|c t IH]; intros H; simpl.
  - rewrite Ascii.eqb_refl. reflexivity.
  - simpl in H. apply not_elem_of_cons in H as [Hc Ht].
    destruct (Ascii.eqb_spec c sep) as [->|_]; [contradiction|].
    rewrite (IH Ht). reflexivity.
Qed.

Lemma split_no_sep (sep : ascii) (t : string) :
  sep ∉ list_ascii_of_string t -> py.split sep t = [t].
Proof.
  induction t as [|c t IH]; intros H; simpl; [reflexivity|].
  simpl in H. apply not_elem_of_cons in H as [Hc Ht].
  destruct (Ascii.eqb_spec c sep) as [->|_]; [contradiction|].
  rewrite (IH Ht). reflexivity.
Qed.

Lemma split_bearer (rest : string) :
  py.split " " ("Bearer " +:+ rest) = "Bearer" :: py.split " " rest.
Proof.
  change ("Bearer " +:+ rest) with (String "B" (String "e" (String "a" (String "r"
    (String "e" (String "r" (String " " rest))))))).
  cbn. destruct (py.split " " rest) as [|piece pieces] eqn:E; [|reflexivity].
  exfalso. exact (split_not_nil _ _ E).
Qed.

Lemma startswith_bearer (rest : string) :
  py.startswith ("Bearer " +:+ rest) "Bearer " = true.
Proof.
  change ("Bearer " +:+ rest) with (String "B" (String "e" (String "a" (String "r"
    (String "e" (String "r" (String " " rest))))))).
  unfold py.startswith. cbn. destruct rest; reflexivity.
Qed.

(** X3. The token taken from the header is the piece between the first and
    the second space: for [Bearer t] and for [Bearer t u], with no space in
    [t], the request goes on with [t] (what follows a second space is
    dropped). When [t] encodes as ASCII the provider is called with it; when
    it does not, nothing is sent and the request ends in
    [UnicodeEncodeError]. *)
Theorem bearer_token_is_first_piece dtv (t u : string) (w : World) :
  no_space t ->
  app.GET_tasks dtv (Some ("Bearer " +:+ t)) w = main.fetch_and_enrich dtv t w /\
  app.GET_tasks dtv (Some ("Bearer " +:+ t +:+ String " " u)) w
    = main.fetch_and_enrich dtv t w /\
  (httpx.encodable t = true ->
   sent (snd (app.GET_tasks dtv (Some ("Bearer " +:+ t +:+ String " " u)) w))
     = (sent w ++ [tasks_request t])%list) /\
  (httpx.encodable t = false ->
   app.GET_tasks dtv (Some ("Bearer " +:+ t +:+ String " " u)) w
     = (Raise UnicodeEncodeError, w)).
Proof.
  intros Ht.
  assert (H1 : app.GET_tasks dtv (Some ("Bearer " +:+ t)) w
               = main.fetch_and_enrich dtv t w).
  { apply GET_tasks_bearer; [apply startswith_bearer|].
    rewrite split_bearer, (split_no_sep _ _ Ht). reflexivity. }
  assert (H2 : app.GET_tasks dtv (Some ("Bearer " +:+ t +:+ String " " u)) w
               = main.fetch_and_enrich dtv t w).
  { apply GET_tasks_bearer; [apply startswith_bearer|].
    rewrite split_bearer, (split_app_sep _ _ _ Ht). reflexivity. }
  split; [exact H1|]. split; [exact H2|]. split.
  - intros Henc. rewrite H2, fetch_world by assumption. reflexivity.
  - intros Henc. rewrite H2. apply fetch_unencodable. assumption.
Qed.

Lemma no_space_abc : no_space "abc".
Proof.
  unfold no_space. vm_compute. intros H.
  repeat (apply elem_of_cons in H as [H|H]; [discriminate|]). inversion H.
Defined.

Lemma bearer_token_is_first_piece_witness :
  sent (snd (app.GET_tasks sample.no_datetime (Some "Bearer abc trailing words")
               sample.offline))
  = [tasks_request "abc"].
Proof.
  exact (proj1 (proj2 (proj2 (bearer_token_is_first_piece sample.no_datetime
                                "abc" "trailing words" sample.offline no_space_abc)))
           eq_refl).
Defined.

Lemma get_tasks_malformed_header_witness :
  app.GET_tasks sample.no_datetime (Some "bearer abc")
    (sample.world (sample.answer 200 [sample.milk]))
  = (Raise (HTTPException 401 "Invalid authorization scheme." []),
     sample.world (sample.answer 200 [sample.milk])).
Proof.
  exact (proj1 (get_tasks_malformed_header sample.no_datetime "bearer abc"
                  (sample.world (sample.answer 200 [sample.milk])) eq_refl)).
Defined.

(** ** [POST /auth/google]: the success path and malformed payloads *)

(** X5. When the access token encodes as ASCII and the provider answers with
    a success status and a JSON object holding string values for [email] and
    [name], [POST /auth/google] returns
    those two values, with [picture] when it is a string and [None] when it is
    absent or null; the other keys of the object are dropped. *)
Theorem authenticate_google_success (token_data : schemas.TokenData.t) (w : World)
    (r : Response) (data : list (string * JSON)) (email name : string)
    (picture : option string) :
  httpx.encodable (schemas.TokenData.access_token token_data) = true ->
  provider w (userinfo_request (schemas.TokenData.access_token token_data))
    = Responded r ->
  is_success r ->
  json r = Some (JDict data) ->
  dict_get "email" data = Some (JStr email) ->
  dict_get "name" data = Some (JStr name) ->
  match dict_get "picture" data with
  | None | Some JNull => picture = None
  | Some (JStr p) => picture = Some p
  | Some _ => False
  end ->
  app.POST_auth_google token_data w
  = (Ok {| schemas.UserInfo.email := email; schemas.UserInfo.name := name;
           schemas.UserInfo.picture := picture |},
     with_call w (userinfo_request (schemas.TokenData.access_token token_data))).
Proof.
  intros Henc Hp Hok Hj He Hn Hpic.
  unfold app.POST_auth_google, main.authenticate_google.
  etransitivity; [eapply try_ok|reflexivity].
  step_ok ltac:(call_answers Hp).
  step_ok ltac:(apply raise_for_status_ok; assumption).
  step_ok ltac:(unfold httpx.json; rewrite Hj; reflexivity).
  unfold lift, schemas.UserInfo.init, schemas.required_str, schemas.optional_str.
  rewrite He, Hn.
  destruct (dict_get "picture" data) as [[| | | |p| |]|]; try contradiction;
    subst; reflexivity.
Qed.

Lemma authenticate_google_success_witness :
  app.POST_auth_google sample_auth.token_data
    (sample.world (sample_auth.profile sample_auth.ada))
  = (Ok {| schemas.UserInfo.email := "ada@example.org";
           schemas.UserInfo.name := "Ada";
           schemas.UserInfo.picture := None |},
     with_call (sample.world (sample_auth.profile sample_auth.ada))
       (userinfo_request "abc")).
Proof.
  apply (authenticate_google_success sample_auth.token_data
           (sample.world (sample_auth.profile sample_auth.ada))
           {| status_code := 200; text := "profile";
              json := Some (JDict sample_auth.ada) |}
           sample_auth.ada "ada@example.org" "Ada" None); try reflexivity.
  unfold is_success. simpl. lia.
Defined.

(** X6. With an access token that encodes as ASCII, a success response of
    the identity provider whose body is not JSON,
    is JSON but not an object, or is an object without [email] or without
    [name], ends [POST /auth/google] in an exception that none of the
    [except] clauses takes ([JSONDecodeError], [TypeError], [ValidationError]):
    the request fails with status 500, not with 400 or 401. *)
Theorem authenticate_google_malformed_payload (token_data : schemas.TokenData.t)
    (w : World) (r : Response) :
  httpx.encodable (schemas.TokenData.access_token token_data) = true ->
  provider w (userinfo_request (schemas.TokenData.access_token token_data))
    = Responded r ->
  is_success r ->
  let outcome := fst (app.POST_auth_google token_data w) in
  (json r = None -> outcome = Raise JSONDecodeError) /\
  (forall v, json r = Some v -> (forall data, v <> JDict data) ->
     outcome = Raise TypeError) /\
  (forall data, json r = Some (JDict data) ->
     dict_get "email" data = None \/ dict_get "name" data = None ->
     outcome = Raise ValidationError) /\
  ((json r = None \/
    (exists v, json r = Some v /\ forall data, v <> JDict data) \/
    (exists data, json r = Some (JDict data) /\
       (dict_get "email" data = None \/ dict_get "name" data = None))) ->
   response_status outcome = 500).
Proof.
  intros Henc Hp Hok outcome.
  assert (Hnone : json r = None -> outcome = Raise JSONDecodeError).
  { intros Hj. subst outcome. unfold app.POST_auth_google, main.authenticate_google.
    erewrite try_uncaught; [reflexivity| |reflexivity].
    step_ok ltac:(call_answers Hp).
    step_ok ltac:(apply raise_for_status_ok; assumption).
    step_raise ltac:(unfold httpx.json; rewrite Hj; reflexivity). }
  assert (Htype : forall v, json r = Some v -> (forall data, v <> JDict data) ->
                            outcome = Raise TypeError).
  { intros v Hj Hv. subst outcome. unfold app.POST_auth_google, main.authenticate_google.
    erewrite try_uncaught; [reflexivity| |reflexivity].
    step_ok ltac:(call_answers Hp).
    step_ok ltac:(apply raise_for_status_ok; assumption).
    step_ok ltac:(unfold httpx.json; rewrite Hj; reflexivity).
    destruct v; try reflexivity. exfalso. eapply Hv. reflexivity. }
  assert (Hvalid : forall data, json r = Some (JDict data) ->
                     dict_get "email" data = None \/ dict_get "name" data = None ->
                     outcome = Raise ValidationError).
  { intros data Hj Hmiss. subst outcome.
    unfold app.POST_auth_google, main.authenticate_google.
    erewrite try_uncaught; [reflexivity| |reflexivity].
    step_ok ltac:(call_answers Hp).
    step_ok ltac:(apply raise_for_status_ok; assumption).
    step_ok ltac:(unfold httpx.json; rewrite Hj; reflexivity).
    unfold lift, schemas.UserInfo.init.
    destruct Hmiss as [H|H]; rewrite (required_str_missing _ _ H);
      repeat match goal with
             | |- context [match ?x with Ok _ => _ | Raise _ => _ end] => destruct x
             end; reflexivity. }
  split; [exact Hnone|]. split; [exact Htype|]. split; [exact Hvalid|].
  intros [Hj|[(v & Hj & Hv)|(data & Hj & Hmiss)]].
  - rewrite (Hnone Hj). reflexivity.
  - rewrite (Htype v Hj Hv). reflexivity.
  - rewrite (Hvalid data Hj Hmiss). reflexivity.
Qed.

Lemma authenticate_google_malformed_payload_witness :
  fst (app.POST_auth_google sample_auth.token_data
         (sample.world (sample_auth.raw 200 None))) = Raise JSONDecodeError /\
  fst (app.POST_auth_google sample_auth.token_data
         (sample.world (sample_auth.raw 200 (Some (JList []))))) = Raise TypeError /\
  fst (app.POST_auth_google sample_auth.token_data
         (sample.world (sample_auth.raw 200 (Some (JDict [("name", JStr "Ada")])))))
    = Raise ValidationError.
Proof.
  split; [|split].
  - refine (proj1 (authenticate_google_malformed_payload sample_auth.token_data
                     (sample.world (sample_auth.raw 200 None))
                     {| status_code := 200; text := "raw"; json := None |}
                     eq_refl eq_refl _) eq_refl).
    unfold is_success. simpl. lia.
  - refine (proj1 (proj2 (authenticate_google_malformed_payload sample_auth.token_data
                     (sample.world (sample_auth.raw 200 (Some (JList []))))
                     {| status_code := 200; text := "raw"; json := Some (JList []) |}
                     eq_refl eq_refl _)) (JList []) eq_refl _).
    + unfold is_success. simpl. lia.
    + discriminate.
  - refine (proj1 (proj2 (proj2 (authenticate_google_malformed_payload
                     sample_auth.token_data
                     (sample.world
                        (sample_auth.raw 200 (Some (JDict [("name", JStr "Ada")]))))
                     {| status_code := 200; text := "raw";
                        json := Some (JDict [("name", JStr "Ada")]) |}
                     eq_refl eq_refl _))) [("name", JStr "Ada")] eq_refl _).
    + unfold is_success. simpl. lia.
    + left. reflexivity.
Defined.

(** ** [GET /tasks]: empty and malformed provider payloads *)

(** X7. When the token encodes as ASCII and the provider's success response
    is an object without an
    [items] key, or with an empty [items] list, [GET /tasks] returns the empty
    list (the default of [.get("items", [])], lines 121 and 308). *)
Theorem get_tasks_without_items dtv (authorization token : string) (w : World)
    (r : Response) (body : list (string * JSON)) :
  py.startswith authorization "Bearer " = true ->
  py.split " " authorization !! 1%nat = Some token ->
  httpx.encodable token = true ->
  provider w (tasks_request token) = Responded r ->
  is_success r ->
  json r = Some (JDict body) ->
  dict_get "items" body = None \/ dict_get "items" body = Some (JList []) ->
  app.GET_tasks dtv (Some authorization) w = (Ok [], with_call w (tasks_request token)).
Proof.
  intros Hs Ht Henc Hp Hok Hj Hi. rewrite (GET_tasks_bearer dtv _ _ w Hs Ht).
  eapply fetch_items; try eassumption.
  - destruct Hi as [-> | ->]; reflexivity.
  - reflexivity.
  - discriminate.
Qed.

Lemma get_tasks_without_items_witness :
  app.GET_tasks sample.no_datetime (Some "Bearer abc")
    (sample.world (sample_auth.raw 200 (Some (JDict [("kind", JStr "tasks#tasks")]))))
  = (Ok [],
     with_call
       (sample.world (sample_auth.raw 200 (Some (JDict [("kind", JStr "tasks#tasks")]))))
       (tasks_request "abc")).
Proof.
  apply (get_tasks_without_items sample.no_datetime "Bearer abc" "abc"
           (sample.world (sample_auth.raw 200 (Some (JDict [("kind", JStr "tasks#tasks")]))))
           {| status_code := 200; text := "raw";
              json := Some (JDict [("kind", JStr "tasks#tasks")]) |}
           [("kind", JStr "tasks#tasks")]); try reflexivity.
  - unfold is_success. simpl. lia.
  - left. reflexivity.
Defined.

(** What the [try] block of [get_tasks] does after a success status, up to the
    point where it raises an exception that no [except] clause takes. *)
Lemma fetch_uncaught dtv (token : string) (w : World) (r : Response) (e : exn) :
  httpx.encodable token = true ->
  provider w (tasks_request token) = Responded r ->
  is_success r ->
  ~ transport_exception e ->
  (do body <- httpx.json r;
   do google_tasks_data <- py.get body "items" (JList []);
   do items <- py.iter google_tasks_data;
   main.for_task_data dtv items []) (with_call w (tasks_request token))
    = (Raise e, with_call w (tasks_request token)) ->
  main.fetch_and_enrich dtv token w = (Raise e, with_call w (tasks_request token)).
Proof.
  intros Henc Hp Hok He Hrest. unfold main.fetch_and_enrich.
  etransitivity; [eapply try_uncaught|reflexivity].
  - step_ok ltac:(call_answers Hp).
    step_ok ltac:(apply raise_for_status_ok; assumption).
    exact Hrest.
  - destruct e; simpl in He; tauto.
Qed.

(** X8. With a token that encodes as ASCII, a success response of the task
    provider that cannot be read ends
    [GET /tasks] in an exception no [except] clause takes, so in a 500 and
    never in a list of tasks: a body that is not JSON gives [JSONDecodeError];
    a JSON body that is not an object gives [AttributeError]; an [items] value
    that is null, a boolean or a number gives [TypeError]; and an [items] value
    that is a non-empty object gives [ValidationError] (the loop runs over its
    keys). *)
Theorem get_tasks_malformed_payload dtv (authorization token : string) (w : World)
    (r : Response) :
  py.startswith authorization "Bearer " = true ->
  py.split " " authorization !! 1%nat = Some token ->
  httpx.encodable token = true ->
  provider w (tasks_request token) = Responded r ->
  is_success r ->
  let outcome := fst (app.GET_tasks dtv (Some authorization) w) in
  (json r = None -> outcome = Raise JSONDecodeError) /\
  (forall v, json r = Some v -> (forall body, v <> JDict body) ->
     outcome = Raise AttributeError) /\
  (forall body v, json r = Some (JDict body) -> dict_get "items" body = Some v ->
     match v with
     | JNull | JBool _ | JInt _ | JFloat _ _ => outcome = Raise TypeError
     | JDict (_ :: _) => outcome = Raise ValidationError
     | _ => True
     end).
Proof.
  intros Hs Ht Henc Hp Hok outcome. subst outcome.
  rewrite (GET_tasks_bearer dtv _ _ w Hs Ht). split; [|split].
  - intros Hj. erewrite fetch_uncaught; [reflexivity|eassumption..| |]; [exact id|].
    step_raise ltac:(unfold httpx.json; rewrite Hj; reflexivity).
  - intros v Hj Hv. erewrite fetch_uncaught; [reflexivity|eassumption..| |]; [exact id|].
    step_ok ltac:(unfold httpx.json; rewrite Hj; reflexivity).
    step_raise ltac:(destruct v; try reflexivity; exfalso; eapply Hv; reflexivity).
  - intros body v Hj Hi.
    assert (Hget : forall w0, py.get (JDict body) "items" (JList []) w0 = (Ok v, w0))
      by (intros w0; unfold py.get; rewrite Hi; reflexivity).
    destruct v as [| | | | | |[|[key value] items]]; try exact I;
      (erewrite fetch_uncaught; [reflexivity|eassumption..| |]; [exact id|];
       step_ok ltac:(unfold httpx.json; rewrite Hj; reflexivity);
       step_ok ltac:(apply Hget)).
    1-4: step_raise ltac:(reflexivity).
    step_ok ltac:(reflexivity).
    eapply for_task_data_invalid; [left|reflexivity].
Qed.

Lemma get_tasks_malformed_payload_witness :
  fst (app.GET_tasks sample.no_datetime (Some "Bearer abc")
         (sample.world (sample_auth.raw 200 None))) = Raise JSONDecodeError /\
  fst (app.GET_tasks sample.no_datetime (Some "Bearer abc")
         (sample.world (sample_auth.raw 200 (Some (JDict [("items", JNull)])))))
    = Raise TypeError.
Proof.
  split.
  - refine (proj1 (get_tasks_malformed_payload sample.no_datetime "Bearer abc" "abc"
                     (sample.world (sample_auth.raw 200 None))
                     {| status_code := 200; text := "raw"; json := None |}
                     eq_refl eq_refl eq_refl eq_refl _) eq_refl).
    unfold is_success. simpl. lia.
  - refine (proj2 (proj2 (get_tasks_malformed_payload sample.no_datetime
                     "Bearer abc" "abc"
                     (sample.world (sample_auth.raw 200 (Some (JDict [("items", JNull)]))))
                     {| status_code := 200; text := "raw";
                        json := Some (JDict [("items", JNull)]) |}
                     eq_refl eq_refl eq_refl eq_refl _))
              [("items", JNull)] JNull eq_refl eq_refl).
    unfold is_success. simpl. lia.
Defined.

(** ** Validation of one provider item *)

(** X9. [GoogleTask.model_validate] accepts a value exactly when it is an
    object whose [id], [title] and [status] are strings, whose [due] is
    absent, null or accepted by the datetime parser, and whose [notes] is
    absent, null or a string; the validated task then carries exactly those
    values. Every other value is refused with [ValidationError]. *)
Theorem model_validate_accepts_iff dtv (task_data : JSON)
    (google_task : schemas.GoogleTask.t) :
  (schemas.GoogleTask.model_validate dtv task_data = Ok google_task <->
   exists data, task_data = JDict data /\ well_formed_item dtv data google_task) /\
  ((forall g, schemas.GoogleTask.model_validate dtv task_data <> Ok g) ->
   schemas.GoogleTask.model_validate dtv task_data = Raise ValidationError).
Proof.
  split.
  - split.
    + destruct task_data as [| | | | | |data]; try discriminate.
      unfold schemas.GoogleTask.model_validate, schemas.required_str,
        schemas.optional_str, schemas.GoogleTask.optional_datetime, well_formed_item.
      intros H. exists data. split; [reflexivity|].
      destruct (dict_get "id" data) as [[| | | |i| |]|]; try discriminate.
      destruct (dict_get "title" data) as [[| | | |ti| |]|]; try discriminate.
      destruct (dict_get "status" data) as [[| | | |st| |]|]; try discriminate.
      destruct (dict_get "due" data) as [d|];
        [destruct d; try (destruct (dtv _) eqn:Ed; [|discriminate])|];
        (destruct (dict_get "notes" data) as [[| | | |note| |]|]; try discriminate;
         injection H as <-; simpl; repeat split; congruence).
    + intros (data & -> & Hid & Hti & Hst & Hdue & Hnotes).
      unfold schemas.GoogleTask.model_validate, schemas.required_str,
        schemas.optional_str, schemas.GoogleTask.optional_datetime.
      rewrite Hid, Hti, Hst. destruct google_task as [gi gti gst gdue gnotes]. simpl in *.
      destruct (dict_get "due" data) as [v|];
        [destruct v;
           [|(destruct Hdue as [Hne Hd]; rewrite Hd; destruct (dtv _); [|congruence])..]|];
        (destruct (dict_get "notes" data) as [[| | | |note| |]|]; try contradiction;
         subst; reflexivity).
  - intros Hno.
    destruct (schemas.GoogleTask.model_validate dtv task_data) as [g|e] eqn:E.
    + exfalso. exact (Hno g eq_refl).
    + rewrite (model_validate_raise dtv _ _ E). reflexivity.
Qed.

Lemma model_validate_accepts_iff_witness :
  schemas.GoogleTask.model_validate sample.no_datetime sample.bread
  = Ok {| schemas.GoogleTask.id := "t2"; schemas.GoogleTask.title := "Buy bread";
          schemas.GoogleTask.status := "completed"; schemas.GoogleTask.due := None;
          schemas.GoogleTask.notes := Some "rye" |}.
Proof.
  apply (proj1 (model_validate_accepts_iff sample.no_datetime sample.bread _)).
  eexists. split; [reflexivity|]. repeat split.
Defined.

(** ** Listing tags *)

Lemma int64_too_large (n : Z) : 2 ^ 63 <= n -> Query.int64 n = false.
Proof.
  intros H. unfold Query.int64.
  destruct (Z.ltb_spec n (2 ^ 63)); [lia|]. apply andb_false_r.
Qed.

(** X10. For non-negative [skip] and [limit] below [2 ^ 63], [get_tags]
    returns exactly [min limit (max 0 (n - skip))] rows, where [n] is the
    number of stored tags; a [skip] at or beyond the end of the table gives
    the empty list and no error. A [skip] or [limit] of [2 ^ 63] or more does
    not fit the store's integers: the listing raises [OverflowError] and
    leaves the world as it was. *)
Theorem get_tags_count (skip limit : Z) (w : World) :
  (0 <= skip < 2 ^ 63 -> 0 <= limit < 2 ^ 63 ->
   exists rows,
     crud.get_tags skip limit w = (Ok rows, w) /\
     Z.of_nat (length rows)
       = Z.min limit (Z.max 0 (Z.of_nat (length (models.tags (db w))) - skip)) /\
     (Z.of_nat (length (models.tags (db w))) <= skip -> rows = [])) /\
  (2 ^ 63 <= skip \/ 2 ^ 63 <= limit ->
   crud.get_tags skip limit w = (Raise OverflowError, w)).
Proof.
  split.
  - intros Hskip Hlimit. eexists. split; [apply get_tags_run; assumption|]. split.
    + rewrite length_take, length_drop. lia.
    + intros Hend. rewrite drop_ge by lia. apply take_nil.
  - intros [H|H]; apply get_tags_overflow; [left|right]; apply int64_too_large;
      assumption.
Qed.

Lemma get_tags_count_witness :
  (exists rows, crud.get_tags 2 5 sample.offline = (Ok rows, sample.offline) /\
                Z.of_nat (length rows) = 1) /\
  crud.get_tags 0 (2 ^ 63) sample.offline = (Raise OverflowError, sample.offline).
Proof.
  split.
  - destruct (proj1 (get_tags_count 2 5 sample.offline) ltac:(lia) ltac:(lia))
      as (rows & Hrun & Hlen & _).
    exists rows. split; [exact Hrun|]. rewrite Hlen. reflexivity.
  - apply (proj2 (get_tags_count 0 (2 ^ 63) sample.offline)). right. lia.
Defined.

(** X11. Pages compose: for non-negative arguments whose sums stay below
    [2 ^ 63], the page [(skip, n)] followed by the page [(skip + n, m)] is the
    page [(skip, n + m)], so walking the table page by page neither loses nor
    repeats a tag. *)
Theorem get_tags_pages_compose (skip n m : Z) (w : World) :
  0 <= skip -> 0 <= n -> 0 <= m -> skip + n < 2 ^ 63 -> n + m < 2 ^ 63 ->
  exists page1 page2,
    crud.get_tags skip n w = (Ok page1, w) /\
    crud.get_tags (skip + n) m w = (Ok page2, w) /\
    crud.get_tags skip (n + m) w = (Ok (page1 ++ page2)%list, w).
Proof.
  intros Hskip Hn Hm Hsn Hnm. eexists _, _.
  split; [apply get_tags_run; lia|]. split; [apply get_tags_run; lia|].
  rewrite get_tags_run by lia. do 2 f_equal.
  rewrite !Z2Nat.inj_add by lia. rewrite <- drop_drop.
  symmetry. apply take_take_drop.
Qed.

Lemma get_tags_pages_compose_witness :
  exists page1 page2,
    crud.get_tags 0 1 sample.offline = (Ok page1, sample.offline) /\
    crud.get_tags (0 + 1) 2 sample.offline = (Ok page2, sample.offline) /\
    crud.get_tags 0 (1 + 2) sample.offline = (Ok (page1 ++ page2)%list, sample.offline).
Proof.
  exact (get_tags_pages_compose 0 1 2 sample.offline
           ltac:(lia) ltac:(lia) ltac:(lia) ltac:(lia) ltac:(lia)).
Defined.

(** X12. [GET /tags/] without query parameters uses [skip = 0] and
    [limit = 100] (line 177): it returns the first hundred stored tags, all of
    them when the table holds fewer, and never changes the world. *)
Theorem read_tags_defaults (w : World) :
  app.GET_tags None None w = (Ok (take 100 (models.tags (db w))), w) /\
  ((length (models.tags (db w)) <= 100)%nat ->
   app.GET_tags None None w = (Ok (models.tags (db w)), w)).
Proof.
  assert (H : app.GET_tags None None w = (Ok (take 100 (models.tags (db w))), w)).
  { change (app.GET_tags None None w)
      with (bind (crud.get_tags 0 100) (fun tags => ret tags) w).
    unfold bind. rewrite get_tags_run by lia. reflexivity. }
  split; [exact H|]. intros Hlen. rewrite H, take_ge by assumption. reflexivity.
Qed.

(** ** Tag lookup and creation *)

Lemma filter_name_unique (name : string) (rows : list models.Tag.t) (t : models.Tag.t) :
  NoDup (models.Tag.name <$> rows) -> t ∈ rows -> models.Tag.name t = name ->
  filter (fun r => models.Tag.name r = name) rows = [t].
Proof.
  induction rows as [|a rows IH]; intros Hnd Hin Hname; [inversion Hin|].
  rewrite fmap_cons in Hnd. apply NoDup_cons in Hnd as [Ha Hnd].
  apply elem_of_cons in Hin as [->|Hin].
  - rewrite filter_cons_True by assumption.
    rewrite filter_name_absent by (rewrite <- Hname; assumption). reflexivity.
  - assert (Hne : models.Tag.name a <> name).
    { intros Heq. apply Ha. rewrite Heq, <- Hname. apply list_elem_of_fmap_2. assumption. }
    rewrite filter_cons_False by assumption. apply IH; assumption.
Qed.

(** X13. On a store whose tag names are unique, [get_tag_by_name n] returns
    [t] exactly when [t] is a stored tag named [n], and returns [None] exactly
    when no stored tag is named [n]. *)
Theorem get_tag_by_name_iff (name : string) (w : World) :
  models.constraints (db w) ->
  (forall t, crud.get_tag_by_name name w = (Ok (Some t), w) <->
             t ∈ models.tags (db w) /\ models.Tag.name t = name) /\
  (crud.get_tag_by_name name w = (Ok None, w) <->
   name ∉ (models.Tag.name <$> models.tags (db w))).
Proof.
  intros [_ Huniq _]. split.
  - intros t. split.
    + intros H.
      destruct (decide (name ∈ models.Tag.name <$> models.tags (db w))) as [Hin|Hout].
      * destruct (get_tag_by_name_present name w Hin) as (t' & Hget & Hname & Ht').
        rewrite Hget in H. injection H as <-. auto.
      * rewrite (get_tag_by_name_absent name w Hout) in H. discriminate.
    + intros [Hin Hname]. rewrite get_tag_by_name_run.
      rewrite (filter_name_unique name _ t Huniq Hin Hname). reflexivity.
  - split.
    + intros H Hin.
      destruct (get_tag_by_name_present name w Hin) as (t & Hget & _).
      rewrite Hget in H. discriminate.
    + apply get_tag_by_name_absent.
Qed.

Lemma get_tag_by_name_iff_witness :
  crud.get_tag_by_name "home" sample.offline = (Ok (Some sample.home), sample.offline).
Proof.
  apply (proj1 (get_tag_by_name_iff "home" sample.offline sample_store_constraints)).
  split; [vm_compute; right; left|reflexivity].
Defined.

(** X14. [crud.create_tag] taken on its own keeps the schema's constraints
    whatever name it is given: with a name in use (the state the handler's
    pre-check is there to exclude) the store's UNIQUE constraint stops it with
    [IntegrityError] and nothing is written; with a name not in use it appends
    one row carrying that name. *)
Theorem crud_create_tag_keeps_constraints (tag : schemas.TagCreate.t) (w : World) :
  models.constraints (db w) ->
  models.constraints (db (snd (crud.create_tag tag w))) /\
  (schemas.TagCreate.name tag ∈ (models.Tag.name <$> models.tags (db w)) ->
   crud.create_tag tag w = (Raise IntegrityError, w)) /\
  (schemas.TagCreate.name tag ∉ (models.Tag.name <$> models.tags (db w)) ->
   exists row, crud.create_tag tag w = (Ok row, with_tag w row) /\
               models.Tag.name row = schemas.TagCreate.name tag).
Proof.
  intros Hc.
  destruct (decide (schemas.TagCreate.name tag ∈ models.Tag.name <$> models.tags (db w)))
    as [Hin|Hout].
  - rewrite (crud_create_tag_duplicate tag w Hin).
    split; [exact Hc|]. split; [reflexivity|]. intros Hout. contradiction.
  - assert (Hrun : crud.create_tag tag w
                   = (Ok {| models.Tag.id := Query.next_id (models.tags (db w));
                            models.Tag.name := schemas.TagCreate.name tag |},
                      with_tag w {| models.Tag.id := Query.next_id (models.tags (db w));
                                    models.Tag.name := schemas.TagCreate.name tag |})).
    { unfold crud.create_tag, bind, Query.insert_tag.
      rewrite decide_False by assumption. reflexivity. }
    rewrite Hrun. split; [|split].
    + apply constraints_with_tag; [assumption|exact Hout|apply next_id_fresh].
    + intros Hin. contradiction.
    + intros _. eexists. split; reflexivity.
Qed.

Lemma crud_create_tag_keeps_constraints_witness :
  crud.create_tag {| schemas.TagCreate.name := "home" |} sample.offline
  = (Raise IntegrityError, sample.offline).
Proof.
  apply (proj1 (proj2 (crud_create_tag_keeps_constraints
                         {| schemas.TagCreate.name := "home" |} sample.offline
                         sample_store_constraints))).
  vm_compute. right. left.
Defined.

(** X15. Creating a tag disturbs no other tag: after [POST /tags/], whatever
    its outcome, every stored row is still at its index, and the lookup of
    any other name answers as before. *)
Theorem create_tag_frame (tag : schemas.TagCreate.t) (w : World) :
  let w1 := snd (app.POST_tags tag w) in
  (forall (i : nat) row, models.tags (db w) !! i = Some row ->
                         models.tags (db w1) !! i = Some row) /\
  (forall name, name <> schemas.TagCreate.name tag ->
     fst (crud.get_tag_by_name name w1) = fst (crud.get_tag_by_name name w)).
Proof.
  unfold app.POST_tags.
  destruct (create_tag_world tag w) as [->|[Hfresh ->]]; [auto|].
  split.
  - intros i row Hi. simpl. apply lookup_app_l_Some. assumption.
  - intros name Hne. rewrite !get_tag_by_name_run. simpl.
    rewrite filter_app, filter_cons_False by (simpl; congruence).
    rewrite filter_nil, app_nil_r. reflexivity.
Qed.

(** X16. Tags are never removed or changed by a request: after any sequence
    of requests the tag table still starts with the rows it held before. *)
Theorem tags_append_only dtv (rs : list app.request) (w : World) :
  models.tags (db w) `prefix_of` models.tags (db (app.serve_all dtv rs w)).
Proof.
  revert w. induction rs as [|r rs IH]; intros w; [reflexivity|].
  unfold app.serve_all in *. simpl.
  transitivity (models.tags (db (app.serve dtv r w))); [|apply IH].
  destruct r as [token_data|authorization|tag|skip limit]; unfold app.serve.
  - unfold app.POST_auth_google. rewrite keeps_authenticate_google. reflexivity.
  - rewrite keeps_GET_tasks. reflexivity.
  - unfold app.POST_tags.
    destruct (create_tag_world tag w) as [->|[_ ->]]; [reflexivity|].
    simpl. apply prefix_app_r. reflexivity.
  - unfold app.GET_tags. rewrite keeps_read_tags. reflexivity.
Qed.

(** ** Tags and the association table *)

Lemma bind_all_nil {A B} (f : A -> list B) (l : list A) :
  (forall a, a ∈ l -> f a = []) -> l ≫= f = [].
Proof.
  induction l as [|a l IH]; intros H; [reflexivity|].
  simpl. rewrite (H a) by left. apply IH. intros b Hb. apply H. right. assumption.
Qed.

Lemma join_unreferenced (row : models.Tag.t) (ts : list models.Tag.t)
    (assoc : list models.task_tag_association.t) :
  (forall a, a ∈ assoc -> models.task_tag_association.tag_id a <> models.Tag.id row) ->
  Query.join (ts ++ [row]) assoc = Query.join ts assoc.
Proof.
  intros H. unfold Query.join. rewrite bind_app. simpl.
  rewrite (bind_all_nil _ assoc).
  - rewrite !app_nil_r. reflexivity.
  - intros a Ha. rewrite decide_False by (apply H; assumption). reflexivity.
Qed.

(** X17. A newly created tag is attached to no task: on a store that
    satisfies the foreign key of [task_tags], [POST /tags/] leaves the tags of
    every task id as they were, and the foreign key still holds afterwards. *)
Theorem create_tag_attaches_nothing (tag : schemas.TagCreate.t) (w : World) :
  foreign_key (db w) ->
  let w1 := snd (app.POST_tags tag w) in
  (forall task_id,
     fst (crud.get_tags_for_task task_id w1) = fst (crud.get_tags_for_task task_id w)) /\
  foreign_key (db w1).
Proof.
  intros Hfk. unfold app.POST_tags.
  destruct (create_tag_world tag w) as [->|[_ ->]]; [auto|].
  split.
  - intros task_id. rewrite !get_tags_for_task_run. simpl.
    rewrite join_unreferenced; [reflexivity|].
    intros a Ha Heq. simpl in Heq.
    apply (next_id_fresh (models.tags (db w))). rewrite <- Heq. apply Hfk. assumption.
  - intros a Ha. simpl in *. rewrite fmap_app. apply elem_of_app. left.
    apply Hfk. assumption.
Qed.

Lemma sample_store_foreign_key : foreign_key sample.store.
Proof.
  intros a Ha. vm_compute in Ha.
  apply elem_of_cons in Ha as [->|Ha]; [vm_compute; left|].
  apply elem_of_cons in Ha as [->|Ha]; [vm_compute; right; left|].
  apply elem_of_cons in Ha as [->|Ha]; [vm_compute; do 2 right; left|].
  inversion Ha.
Defined.

Lemma create_tag_attaches_nothing_witness :
  fst (crud.get_tags_for_task "t1"
         (snd (app.POST_tags {| schemas.TagCreate.name := "garden" |} sample.offline)))
  = fst (crud.get_tags_for_task "t1" sample.offline).
Proof.
  exact (proj1 (create_tag_attaches_nothing {| schemas.TagCreate.name := "garden" |}
                  sample.offline sample_store_foreign_key) "t1").
Defined.

(** X18. A created tag shows up last in the listing: after a successful
    [POST /tags/] on a table of fewer than [2 ^ 63] rows, listing from the
    start with a limit above the old row count (and below [2 ^ 63]) returns
    the old rows followed by the created row, and the page of size one at the
    old row count is the created row alone. *)
Theorem create_then_list (tag : schemas.TagCreate.t) (w : World) :
  schemas.TagCreate.name tag ∉ (models.Tag.name <$> models.tags (db w)) ->
  Z.of_nat (length (models.tags (db w))) < 2 ^ 63 ->
  exists row w1,
    app.POST_tags tag w = (Ok row, w1) /\
    (forall limit, Z.of_nat (length (models.tags (db w))) < limit < 2 ^ 63 ->
       crud.get_tags 0 limit w1 = (Ok (models.tags (db w) ++ [row])%list, w1)) /\
    crud.get_tags (Z.of_nat (length (models.tags (db w)))) 1 w1 = (Ok [row], w1).
Proof.
  intros Hfresh Hsize. eexists _, _. unfold app.POST_tags.
  split; [apply create_tag_fresh; assumption|]. split.
  - intros limit Hlimit. rewrite get_tags_run by lia.
    change (Z.to_nat 0) with 0%nat. rewrite drop_0. simpl.
    rewrite take_ge; [reflexivity|]. rewrite length_app. simpl. lia.
  - rewrite get_tags_run by lia. rewrite Nat2Z.id. simpl.
    rewrite drop_app_length. reflexivity.
Qed.

Lemma create_then_list_witness :
  exists row w1,
    app.POST_tags {| schemas.TagCreate.name := "garden" |} sample.offline = (Ok row, w1) /\
    crud.get_tags 3 1 w1 = (Ok [row], w1).
Proof.
  destruct (create_then_list {| schemas.TagCreate.name := "garden" |} sample.offline)
    as (row & w1 & Hrun & _ & Hpage).
  - vm_compute. intros H.
    repeat (apply elem_of_cons in H as [H|H]; [discriminate|]). inversion H.
  - simpl. lia.
  - exists row, w1. split; [exact Hrun|exact Hpage].
Defined.









